(** * Tasks_plasmAI: training utilities, loss functions and grid search

    A shallow embedding of [utilities.py] and [manual_optimization.py].

    Conventions of the embedding.
    - Python and torch floating-point numbers are modelled as exact
      rationals ([Q]).  The mean of an empty tensor or list, which is
      not-a-number in torch and numpy, is an explicit [NaN] constructor
      or [None]; [float("inf")] is the constructor [PInf].  Where a
      not-a-number would flow into a variable the model types as a
      rational, the model stops with [NotRational]: such runs are
      outside the model.
    - A Python exception is a [Raise] result.
    - Objects that the source mutates in place (numpy arrays, the
      parameter tensors of a torch module) live in a heap, a finite map
      from locations to contents, so that two references to one object
      are visibly the same object. *)

From Stdlib Require Import ZArith QArith Qabs Lia List.
From Stdlib Require Import Reals Lra Qreals.
From Stdlib Require Lqa.
From stdpp Require Import gmap strings list fin_maps pretty.

Local Open Scope Q_scope.

(** ** Results of fallible code *)

Inductive exn : Set :=
| AssertionError
| ValueError
| KeyError
| IndexError
| TypeError
| ZeroDivisionError
| NameError
| RuntimeError
| NotRational.  (* a float that is no rational: nan or an infinity *)

Inductive result (A : Type) : Type :=
| Ok (a : A)
| Raise (e : exn).
Arguments Ok {A} a.
Arguments Raise {A} e.

Definition rbind {A B : Type} (r : result A) (k : A -> result B) : result B :=
  match r with
  | Ok a => k a
  | Raise e => Raise e
  end.

#[global] Instance result_ret : MRet result := fun A a => Ok a.
#[global] Instance result_bind : MBind result := fun A B k r => rbind r k.

Definition is_raise {A : Type} (r : result A) : Prop := exists e, r = Raise e.

(** ** Rational helpers *)

Definition Qsum (l : list Q) : Q := fold_left Qplus l 0.

(** [numpy.mean] of a Python list and [Tensor.mean]: the arithmetic mean,
    not-a-number ([None]) on an empty argument. *)
Definition mean_opt (l : list Q) : option Q :=
  match l with
  | [] => None
  | _ => Some (Qsum l / inject_Z (Z.of_nat (length l)))
  end.

(** ** Tensors: a shape and the elements in row-major order *)

Record tensor : Type := mkTensor { shape : list nat; data : list Q }.

Definition numel (sh : list nat) : nat := fold_right Nat.mul 1%nat sh.

(** torch's broadcasting, as used by [y_true - y_pred] on tensors of
    different shapes: shapes are aligned at their last dimension; two
    sizes are compatible when they are equal or one of them is 1. *)
Definition broadcast_dim (a b : nat) : option nat :=
  if (a =? b)%nat then Some a
  else if (a =? 1)%nat then Some b
  else if (b =? 1)%nat then Some a
  else None.

Fixpoint broadcast_rev (a b : list nat) : option (list nat) :=
  match a, b with
  | [], _ => Some b
  | _, [] => Some a
  | x :: a', y :: b' =>
      match broadcast_dim x y, broadcast_rev a' b' with
      | Some d, Some r => Some (d :: r)
      | _, _ => None
      end
  end.

Definition broadcast_shapes (a b : list nat) : option (list nat) :=
  match broadcast_rev (rev a) (rev b) with
  | Some r => Some (rev r)
  | None => None
  end.

Fixpoint chunks (k n : nat) (d : list Q) : list (list Q) :=
  match n with
  | O => []
  | S n' => take k d :: chunks k n' (drop k d)
  end.

(** [expand s t d]: the elements [d] of a tensor of shape [s] repeated to
    shape [t] ([s] already padded with leading ones to the length of [t]). *)
Fixpoint expand (s t : list nat) (d : list Q) : list Q :=
  match s, t with
  | n :: s', m :: t' =>
      let parts := map (expand s' t') (chunks (numel s') n d) in
      if (n =? m)%nat then concat parts
      else concat (repeat (concat parts) m)
  | _, _ => d
  end.

Definition pad_shape (n : nat) (s : list nat) : list nat :=
  repeat 1%nat (n - length s) ++ s.

Definition expand_to (t : list nat) (x : tensor) : list Q :=
  expand (pad_shape (length t) (shape x)) t (data x).

(** [a - b] on tensors. *)
Definition tensor_sub (a b : tensor) : result tensor :=
  match broadcast_shapes (shape a) (shape b) with
  | Some sh => Ok (mkTensor sh (zip_with Qminus (expand_to sh a) (expand_to sh b)))
  | None => Raise RuntimeError
  end.

(** What a loss returns: a zero-dimensional tensor for a reduction
    (not-a-number for the mean of no element) or an elementwise tensor. *)
Inductive loss_value : Type :=
| Scalar (q : Q)
| NaN
| Elementwise (t : tensor).

Definition tensor_mean (t : tensor) : loss_value :=
  match mean_opt (data t) with
  | Some q => Scalar q
  | None => NaN
  end.

Definition tensor_sum (t : tensor) : loss_value := Scalar (Qsum (data t)).

(** [Tensor.item()]: the Python number of a one-element tensor. *)
Definition item (v : loss_value) : result Q :=
  match v with
  | Scalar q => Ok q
  | NaN => Raise NotRational
  | Elementwise t =>
      match data t with
      | [q] => Ok q
      | _ => Raise RuntimeError
      end
  end.

(** ** [calculate_weighted_mse] *)

Module WeightedMse.

(** [(input - target) ** 2] on tensors of one shape. *)
Definition squared_error (input target : tensor) : tensor :=
  mkTensor (shape input)
           (zip_with (fun a b => (a - b) ^ 2) (data input) (data target)).

Definition forward (reduction : string) (input target : tensor) : result loss_value :=
  if decide (shape input = shape target) then
    let squared_error := squared_error input target in
    if decide (reduction = "mean"%string) then Ok (tensor_mean squared_error)
    else if decide (reduction = "sum"%string) then Ok (tensor_sum squared_error)
    else Ok (Elementwise squared_error)
  else Raise ValueError.

(** The reduction the specification names for a mode. *)
Definition reduce_spec (reduction : string) (se : tensor) : loss_value :=
  if decide (reduction = "mean"%string) then
    match data se with
    | [] => NaN
    | _ => Scalar (Qsum (data se) / inject_Z (Z.of_nat (length (data se))))
    end
  else if decide (reduction = "sum"%string) then Scalar (Qsum (data se))
  else Elementwise se.

End WeightedMse.

(** ** [calculate_huber_loss] *)

Module Huber.

(** The two branches of [torch.where], on one element. *)
Definition squared_branch (error : Q) : Q := (1 # 2) * error ^ 2.
Definition linear_branch (delta error : Q) : Q := delta * (error - (1 # 2) * delta).

Definition huber_elem (delta error : Q) : Q :=
  if Qle_bool error delta then squared_branch error else linear_branch delta error.

Definition forward (delta : Q) (y_pred y_true : tensor) : result loss_value :=
  d ← tensor_sub y_true y_pred;
  let error := map Qabs (data d) in
  let loss := mkTensor (shape d) (map (huber_elem delta) error) in
  Ok (tensor_mean loss).

(** The same element function on real numbers, where slopes are taken. *)
Definition squared_branchR (error : R) : R := (1 / 2) * error ^ 2.
Definition linear_branchR (delta error : R) : R := delta * (error - (1 / 2) * delta).

Definition huber_elemR (delta error : R) : R :=
  if Rle_dec error delta then squared_branchR error else linear_branchR delta error.

End Huber.

(** ** [unscale] *)

(** A two-dimensional numpy array of floats: [shape[1]] and the rows. *)
Record ndarray : Type := mkArray { ncols : nat; rows : list (list Q) }.

Abbreviation loc := nat (only parsing).

(** The part of the Python world [unscale] acts on: the arrays, by
    location, and what was printed. *)
Record world : Type := mkWorld { heap : gmap loc ndarray; stdout : list string }.

(** [a[:, i]] *)
Definition get_col (i : nat) (a : ndarray) : list Q :=
  map (fun row => nth i row 0) (rows a).

(** [a[:, i] = vals] *)
Definition set_col (i : nat) (vals : list Q) (a : ndarray) : ndarray :=
  mkArray (ncols a) (zip_with (fun row v => <[i:=v]> row) (rows a) vals).

(** [scaling_info[column][key]] *)
Definition scaling_lookup (scaling_info : gmap string (gmap string Q))
    (column key : string) : result Q :=
  match scaling_info !! column with
  | Some entry =>
      match entry !! key with
      | Some v => Ok v
      | None => Raise KeyError
      end
  | None => Raise KeyError
  end.

Definition warning_message (i num_columns : nat) : string :=
  ("Warning: Index " +:+ pretty i +:+ " is out of bounds for data with "
     +:+ pretty num_columns +:+ " columns.")%string.

Definition print (line : string) (w : world) : world :=
  mkWorld (heap w) (stdout w ++ [line]).

(** The body of [for i, column in enumerate(column_names)], from index [i]
    on; [data] is read and [unscaled_data] written through the heap. *)
Fixpoint unscale_loop (scaling_info : gmap string (gmap string Q))
    (num_columns : nat) (data unscaled_data : loc)
    (i : nat) (column_names : list string) (w : world) : result unit * world :=
  match column_names with
  | [] => (Ok tt, w)
  | column :: rest =>
      if (num_columns <=? i)%nat then (Ok tt, print (warning_message i num_columns) w)
      else
        match scaling_lookup scaling_info column "mean",
              scaling_lookup scaling_info column "std" with
        | Raise e, _ => (Raise e, w)
        | Ok _, Raise e => (Raise e, w)
        | Ok mean, Ok std =>
            match heap w !! data, heap w !! unscaled_data with
            | Some d, Some u =>
                let col := map (fun x => x * std + mean) (get_col i d) in
                let w' := mkWorld (<[unscaled_data := set_col i col u]> (heap w)) (stdout w) in
                unscale_loop scaling_info num_columns data unscaled_data (S i) rest w'
            | _, _ => (Raise NameError, w)
            end
        end
  end.

Definition unscale (data : loc) (column_names : list string)
    (scaling_info : gmap string (gmap string Q)) (w : world) : result loc * world :=
  match heap w !! data with
  | None => (Raise NameError, w)
  | Some d =>
      let unscaled_data := fresh (dom (heap w)) in
      let w1 := mkWorld (<[unscaled_data := d]> (heap w)) (stdout w) in
      let num_columns := ncols d in
      match unscale_loop scaling_info num_columns data unscaled_data 0 column_names w1 with
      | (Ok _, w2) => (Ok unscaled_data, w2)
      | (Raise e, w2) => (Raise e, w2)
      end
  end.

(** The first [n] requested columns all have their metadata. *)
Definition has_metadata (scaling_info : gmap string (gmap string Q))
    (column_names : list string) (n : nat) : Prop :=
  forall i column, (i < n)%nat -> column_names !! i = Some column ->
    exists mean std,
      scaling_lookup scaling_info column "mean" = Ok mean /\
      scaling_lookup scaling_info column "std" = Ok std.

(** Entry [(r, i)] of an array. *)
Definition entry (a : ndarray) (r i : nat) : option Q :=
  match rows a !! r with
  | Some row => row !! i
  | None => None
  end.

(** ** [train_regression_model] *)

(** [t.shape[k]] *)
Definition dim (t : tensor) (k : nat) : result nat :=
  match shape t !! k with
  | Some n => Ok n
  | None => Raise IndexError
  end.

(** [t[:, col]] of a batch, as the one-dimensional array handed to
    scikit-learn.  Batches are two-dimensional; an array of more
    dimensions is refused by the metric functions. *)
Definition column (t : tensor) (col : nat) : result (list Q) :=
  match shape t with
  | [n; c] =>
      if (col <? c)%nat
      then Ok (map (fun r => nth (r * c + col) (data t) 0) (seq 0 n))
      else Raise IndexError
  | [] | [_] => Raise IndexError
  | _ => Raise ValueError
  end.

(** [float("inf")] or a finite float. *)
Inductive xfloat : Type :=
| Fin (q : Q)
| PInf.

(** [v < b] *)
Definition lt_xfloat (v : Q) (b : xfloat) : bool :=
  match b with
  | PInf => true
  | Fin q => match v ?= q with Lt => true | _ => false end
  end.

(** A data loader: [len(loader.dataset)] and the batches one iteration
    yields; a shuffling loader yields another sequence in every epoch, so
    the sequence is indexed by the epoch. *)
Record loader : Type := mkLoader {
  dataset_len : nat;
  batches : nat -> list (tensor * tensor)
}.

(** One progress report (the values before they are formatted). *)
Record report : Type := mkReport {
  rep_epoch : nat;
  rep_num_epochs : nat;
  rep_train_loss : Q;
  rep_val_loss : Q;
  rep_lr : Q;
  rep_r2 : list Q;
  rep_mean_r2 : option Q;
  rep_mse : list Q;
  rep_mean_mse : option Q
}.

Inductive line : Type :=
| Progress (r : report)
| EarlyStopping (epoch : nat).

Inductive control : Set := Continue | Break.

Section Training.

(** [P]: the contents of the model's parameter tensors.
    [O]: the internal state of the optimizer and of the scheduler. *)
Context {P O : Type}.

(** [model(inputs)], in training mode ([true]) or evaluation mode. *)
Variable forward : bool -> P -> tensor -> result tensor.
(** [criterion(outputs, targets).item()] *)
Variable criterion : tensor -> tensor -> result Q.
(** [loss.backward(); optimizer.step()] after [optimizer.zero_grad()]:
    the new optimizer state and the new contents of the parameters. *)
Variable optimizer_step : O -> P -> tensor -> tensor -> O * P.
(** [scheduler.step(val_loss)], when a scheduler is given. *)
Variable scheduler : option (Q -> O -> O).
(** The learning rate of the first parameter group. *)
Variable lr_of : O -> Q.
(** scikit-learn's metrics, called as [metric(target_col, pred_col)]. *)
Variable r2_score mean_squared_error : list Q -> list Q -> result Q.

(** The parameter tensors live in a heap.  The module object is the
    location of its parameters.  [Module.state_dict()] does not copy:
    the dictionary it returns holds references to the module's own
    parameter tensors, so a state dictionary is again that location.
    The optimizer writes the parameters in place. *)
Definition state_dict (model : loc) : loc := model.

(** [model.load_state_dict(sd)]: copies the contents of the tensors of
    [sd] into the parameters of [model]; [None] is refused. *)
Definition load_state_dict (model : loc) (sd : option loc)
    (h : gmap loc P) : result (gmap loc P) :=
  match sd with
  | None => Raise TypeError
  | Some src =>
      match h !! src with
      | Some v => Ok (<[model := v]> h)
      | None => Raise NameError
      end
  end.

Definition deref (h : gmap loc P) (model : loc) : result P :=
  match h !! model with
  | Some p => Ok p
  | None => Raise NameError
  end.

(** The local variables that live across epochs, with the heap, the
    optimizer and what was printed. *)
Record tstate : Type := mkState {
  st_heap : gmap loc P;
  st_opt : O;
  st_outputs : option tensor;      (* [outputs], unbound before the first batch *)
  train_losses : list Q;
  val_losses : list Q;
  best_val_loss : xfloat;
  early_counter : Z;
  best_model_state : option loc;
  mse_values : list Q;
  st_out : list line
}.

(** [for inputs, targets in train_loader: ...] *)
Fixpoint train_batches (model : loc) (bs : list (tensor * tensor))
    (h : gmap loc P) (o : O) (outputs : option tensor) (train_loss : Q)
    : result (gmap loc P * O * option tensor * Q) :=
  match bs with
  | [] => Ok (h, o, outputs, train_loss)
  | (inputs, targets) :: rest =>
      p ← deref h model;
      outputs' ← forward true p inputs;
      if decide (shape outputs' = shape targets) then
        loss ← criterion outputs' targets;
        n ← dim inputs 0;
        let train_loss' := train_loss + loss * inject_Z (Z.of_nat n) in
        let '(o', p') := optimizer_step o p inputs targets in
        train_batches model rest (<[model := p']> h) o' (Some outputs') train_loss'
      else Raise AssertionError
  end.

(** [for col in range(outputsv.shape[1]): ...] from column [col] on. *)
Fixpoint metric_columns (outputsv targets : tensor) (cols : list nat)
    (r2_values mse_values : list Q) : result (list Q * list Q) :=
  match cols with
  | [] => Ok (r2_values, mse_values)
  | col :: rest =>
      pred_col ← column outputsv col;
      target_col ← column targets col;
      r2 ← r2_score target_col pred_col;
      mse ← mean_squared_error target_col pred_col;
      metric_columns outputsv targets rest (r2_values ++ [r2]) (mse_values ++ [mse])
  end.

(** [for inputs, targets in val_loader: ...] *)
Fixpoint val_batches (p : P) (bs : list (tensor * tensor))
    (val_loss : Q) (r2_values mse_values : list Q)
    : result (Q * list Q * list Q) :=
  match bs with
  | [] => Ok (val_loss, r2_values, mse_values)
  | (inputs, targets) :: rest =>
      outputsv ← forward false p inputs;
      lossv ← criterion outputsv targets;
      n ← dim inputs 0;
      let val_loss' := val_loss + lossv * inject_Z (Z.of_nat n) in
      ncol ← dim outputsv 1;
      '(r2_values', mse_values') ←
        metric_columns outputsv targets (seq 0 ncol) r2_values mse_values;
      val_batches p rest val_loss' r2_values' mse_values'
  end.

(** [x /= len(loader.dataset)] *)
Definition div_len (x : Q) (n : nat) : result Q :=
  if (n =? 0)%nat then Raise ZeroDivisionError
  else Ok (x / inject_Z (Z.of_nat n)).

(** [[l[col] for col in range(n)]] *)
Fixpoint index_all (l : list Q) (cols : list nat) : result (list Q) :=
  match cols with
  | [] => Ok []
  | col :: rest =>
      match l !! col with
      | Some x => xs ← index_all l rest; Ok (x :: xs)
      | None => Raise IndexError
      end
  end.

(** The progress report of an epoch, when it is due. *)
Definition print_metrics (epoch num_epochs : nat) (outputs : option tensor)
    (train_loss val_loss current_lr : Q) (r2_values mse_values : list Q)
    (mean_r2 mean_mse : option Q) (out : list line) : result (list line) :=
  if ((epoch mod 10 =? 0)%nat || (Z.of_nat epoch =? Z.of_nat num_epochs - 1)%Z)%bool then
    match outputs with
    | None => Raise NameError
    | Some outputs =>
        ncol ← dim outputs 1;
        r2s ← index_all r2_values (seq 0 ncol);
        mses ← index_all mse_values (seq 0 ncol);
        Ok (out ++ [Progress (mkReport (S epoch) num_epochs train_loss val_loss
                                current_lr r2s mean_r2 mses mean_mse)])
    end
  else Ok out.

(** One epoch up to the early-stopping block: training, validation,
    metrics, scheduler and progress report.  Returns the epoch's
    validation loss with the state. *)
Definition epoch_metrics (model : loc) (train_loader val_loader : loader)
    (num_epochs epoch : nat) (s : tstate) : result (tstate * Q) :=
  '(h, o, outputs, train_loss) ←
    train_batches model (batches train_loader epoch)
                  (st_heap s) (st_opt s) (st_outputs s) 0;
  train_loss ← div_len train_loss (dataset_len train_loader);
  p ← deref h model;
  '(val_loss, r2_values, mse_values') ←
    val_batches p (batches val_loader epoch) 0 [] (mse_values s);
  val_loss ← div_len val_loss (dataset_len val_loader);
  let mean_r2 := mean_opt r2_values in
  let mean_mse := mean_opt mse_values' in
  let o' := match scheduler with
            | Some step => step val_loss o
            | None => o
            end in
  let current_lr := lr_of o' in
  out ← print_metrics epoch num_epochs outputs train_loss val_loss current_lr
                      r2_values mse_values' mean_r2 mean_mse (st_out s);
  Ok (mkState h o' outputs (train_losses s ++ [train_loss])
              (val_losses s ++ [val_loss]) (best_val_loss s) (early_counter s)
              (best_model_state s) mse_values' out,
      val_loss).

(** The early-stopping block of an epoch. *)
Definition early_stopping (model : loc) (patience : Z) (epoch : nat)
    (s : tstate) (val_loss : Q) : result (tstate * control) :=
  if lt_xfloat val_loss (best_val_loss s) then
    Ok (mkState (st_heap s) (st_opt s) (st_outputs s) (train_losses s)
                (val_losses s) (Fin val_loss) 0 (Some (state_dict model))
                (mse_values s) (st_out s),
        Continue)
  else
    let early_counter' := (early_counter s + 1)%Z in
    if (patience <=? early_counter')%Z then
      h ← load_state_dict model (best_model_state s) (st_heap s);
      Ok (mkState h (st_opt s) (st_outputs s) (train_losses s)
                  (val_losses s) (best_val_loss s) early_counter'
                  (best_model_state s) (mse_values s)
                  (st_out s ++ [EarlyStopping (S epoch)]),
          Break)
    else
      Ok (mkState (st_heap s) (st_opt s) (st_outputs s) (train_losses s)
                  (val_losses s) (best_val_loss s) early_counter'
                  (best_model_state s) (mse_values s) (st_out s),
          Continue).

Definition epoch_body (model : loc) (train_loader val_loader : loader)
    (num_epochs : nat) (patience : Z) (epoch : nat) (s : tstate)
    : result (tstate * control) :=
  '(s1, val_loss) ← epoch_metrics model train_loader val_loader num_epochs epoch s;
  early_stopping model patience epoch s1 val_loss.

(** [for epoch in range(num_epochs): ...], over the epochs still to run.
    The flag tells whether the loop was left by [break]. *)
Fixpoint run_epochs (model : loc) (train_loader val_loader : loader)
    (num_epochs : nat) (patience : Z) (epochs : list nat) (s : tstate)
    : result (tstate * control) :=
  match epochs with
  | [] => Ok (s, Continue)
  | epoch :: rest =>
      '(s', c) ← epoch_body model train_loader val_loader num_epochs patience epoch s;
      match c with
      | Break => Ok (s', Break)
      | Continue => run_epochs model train_loader val_loader num_epochs patience rest s'
      end
  end.

Definition initial_state (h : gmap loc P) (o : O) : tstate :=
  mkState h o None [] [] PInf 0 None [] [].

(** The whole loop, from the heap and optimizer state at the call. *)
Definition train_loop (model : loc) (train_loader val_loader : loader)
    (num_epochs : nat) (patience : Z) (h : gmap loc P) (o : O)
    : result (tstate * control) :=
  run_epochs model train_loader val_loader num_epochs patience
             (seq 0 num_epochs) (initial_state h o).

(** [train_regression_model]: the heap at return and the returned
    triple.  ([model.to(device)] leaves the parameters' contents as they
    are.) *)
Definition train_regression_model (model : loc) (train_loader val_loader : loader)
    (num_epochs : nat) (patience : Z) (h : gmap loc P) (o : O)
    : result (gmap loc P * (loc * list Q * list Q)) :=
  '(s, _) ← train_loop model train_loader val_loader num_epochs patience h o;
  Ok (st_heap s, (model, train_losses s, val_losses s)).

(** The same epochs with the early-stopping block left out: what the
    optimizer, the scheduler and the metrics do on their own. *)
Fixpoint plain_epochs (model : loc) (train_loader val_loader : loader)
    (num_epochs : nat) (epochs : list nat) (s : tstate) : result tstate :=
  match epochs with
  | [] => Ok s
  | epoch :: rest =>
      '(s', _) ← epoch_metrics model train_loader val_loader num_epochs epoch s;
      plain_epochs model train_loader val_loader num_epochs rest s'
  end.

(** Two states that agree on everything but the three early-stopping
    variables. *)
Definition same_training (s t : tstate) : Prop :=
  st_heap s = st_heap t /\ st_opt s = st_opt t /\ st_outputs s = st_outputs t /\
  train_losses s = train_losses t /\ val_losses s = val_losses t /\
  mse_values s = mse_values t /\ st_out s = st_out t.

(** The validation losses [post] do not improve on [best]. *)
Definition no_improvement (best : Q) (post : list Q) : Prop :=
  Forall (fun v => lt_xfloat v (Fin best) = false) post.

(** The recorded validation losses split into the epochs before the best
    one, the best one, and [n] epochs after it without improvement. *)
Definition best_then_worse (n : Z) (s : tstate) : Prop :=
  exists pre best post,
    val_losses s = pre ++ best :: post /\
    best_val_loss s = Fin best /\
    Z.of_nat (length post) = n /\
    Forall (fun v => best <= v) pre /\
    no_improvement best post.

(** What the early-stopping variables say between two epochs. *)
Definition patience_inv (patience : Z) (s : tstate) : Prop :=
  (0 <= early_counter s < patience)%Z /\
  ((val_losses s = [] /\ best_val_loss s = PInf /\ early_counter s = 0%Z) \/
   best_then_worse (early_counter s) s).

(** The losses of the batches of one training pass, each with its batch
    size, in the order of the batches. *)
Fixpoint batch_losses (model : loc) (bs : list (tensor * tensor))
    (h : gmap loc P) (o : O) : result (list (Q * nat)) :=
  match bs with
  | [] => Ok []
  | (inputs, targets) :: rest =>
      p ← deref h model;
      outputs ← forward true p inputs;
      loss ← criterion outputs targets;
      n ← dim inputs 0;
      let '(o', p') := optimizer_step o p inputs targets in
      ls ← batch_losses model rest (<[model := p']> h) o';
      Ok ((loss, n) :: ls)
  end.

End Training.

(** The sum, over the batches, of batch loss times batch size. *)
Fixpoint weighted_loss_sum (ls : list (Q * nat)) : Q :=
  match ls with
  | [] => 0
  | (loss, n) :: rest => loss * inject_Z (Z.of_nat n) + weighted_loss_sum rest
  end.

(** ** scikit-learn's metrics on rationals *)

(** [mean_squared_error(y_true, y_pred)] on one-dimensional arrays. *)
Definition sk_mean_squared_error (y_true y_pred : list Q) : result Q :=
  if negb (length y_true =? length y_pred)%nat then Raise ValueError
  else match mean_opt (zip_with (fun t p => (t - p) ^ 2) y_true y_pred) with
       | Some v => Ok v
       | None => Raise ValueError
       end.

(** [r2_score(y_true, y_pred)]: one minus the residual sum of squares over
    the total sum of squares; with a constant target, 1 for a perfect
    prediction and 0 otherwise; not-a-number on fewer than two samples. *)
Definition sk_r2_score (y_true y_pred : list Q) : result Q :=
  if negb (length y_true =? length y_pred)%nat then Raise ValueError
  else match y_true with
       | [] => Raise ValueError
       | [_] => Raise NotRational
       | _ =>
           let m := Qsum y_true / inject_Z (Z.of_nat (length y_true)) in
           let numerator := Qsum (zip_with (fun t p => (t - p) ^ 2) y_true y_pred) in
           let denominator := Qsum (map (fun t => (t - m) ^ 2) y_true) in
           if negb (Qeq_bool denominator 0) then Ok (1 - numerator / denominator)
           else if Qeq_bool numerator 0 then Ok 1
           else Ok 0
       end.

(** ** A smallest instance: one weight, plain gradient descent

    The model is [nn.Linear(1, 1, bias=False)], its parameter the weight
    [w]; the optimizer is [torch.optim.SGD] without momentum, its state
    the learning rate. *)
Module Toy.

Definition forward (training : bool) (w : Q) (x : tensor) : result tensor :=
  match shape x with
  | [n; 1%nat] => Ok (mkTensor [n; 1%nat] (map (Qmult w) (data x)))
  | _ => Raise RuntimeError
  end.

(** [calculate_weighted_mse('mean').forward] as the criterion. *)
Definition mse_criterion (outputs targets : tensor) : result Q :=
  v ← WeightedMse.forward "mean" outputs targets; item v.

(** [calculate_huber_loss().forward] as the criterion. *)
Definition huber_criterion (outputs targets : tensor) : result Q :=
  v ← Huber.forward 1 outputs targets; item v.

Definition mean_or_zero (l : list Q) : Q := default 0 (mean_opt l).

(** The gradient of the mean squared error in [w], and the step. *)
Definition mse_grad (w : Q) (inputs targets : tensor) : Q :=
  mean_or_zero (zip_with (fun x t => 2 * x * (w * x - t)) (data inputs) (data targets)).

Definition sgd_mse_step (lr w : Q) (inputs targets : tensor) : Q * Q :=
  (lr, Qred (w - lr * mse_grad w inputs targets)).

(** The gradient of the Huber loss with threshold 1 in [w], and the step. *)
Definition clip (x : Q) : Q :=
  if Qle_bool x (-1) then -1 else if Qle_bool 1 x then 1 else x.

Definition huber_grad (w : Q) (inputs targets : tensor) : Q :=
  mean_or_zero (zip_with (fun x t => - (x * clip (t - w * x))) (data inputs) (data targets)).

Definition sgd_huber_step (lr w : Q) (inputs targets : tensor) : Q * Q :=
  (lr, Qred (w - lr * huber_grad w inputs targets)).

Definition lr_of (lr : Q) : Q := lr.

(** Two samples with target equal to input, in one batch. *)
Definition xs : tensor := mkTensor [2%nat; 1%nat] [1; 2].
Definition identity_loader : loader := mkLoader 2 (fun _ => [(xs, xs)]).

(** The same inputs with a target of two columns. *)
Definition wide_targets : tensor := mkTensor [2%nat; 2%nat] [1; 1; 2; 2].
Definition wide_loader : loader := mkLoader 2 (fun _ => [(xs, wide_targets)]).

(** The model object and the heap at the call: weight 0. *)
Definition model : loc := 0%nat.
Definition heap0 : gmap loc Q := {[ model := 0 ]}.

(** Learning rate 1/2, patience 2, ten epochs. *)
Definition diverging_run : result (tstate * control) :=
  train_loop forward mse_criterion sgd_mse_step None lr_of
             sk_r2_score sk_mean_squared_error
             model identity_loader identity_loader 10 2 heap0 (1 # 2).

(** Learning rate 1/10, patience 5, two epochs. *)
Definition converging_run : result (tstate * control) :=
  train_loop forward mse_criterion sgd_mse_step None lr_of
             sk_r2_score sk_mean_squared_error
             model identity_loader identity_loader 2 5 heap0 (1 # 10).

(** Huber criterion, one epoch; the validation targets have two columns. *)
Definition mismatched_val_run : result (gmap loc Q * (loc * list Q * list Q)) :=
  train_regression_model forward huber_criterion sgd_huber_step None lr_of
             sk_r2_score sk_mean_squared_error
             model identity_loader wide_loader 1 5 heap0 (1 # 10).

(** The same data as training data. *)
Definition mismatched_train_run : result (gmap loc Q * (loc * list Q * list Q)) :=
  train_regression_model forward huber_criterion sgd_huber_step None lr_of
             sk_r2_score sk_mean_squared_error
             model wide_loader identity_loader 1 5 heap0 (1 # 10).

(** The diverging run with the early-stopping block left out, for [n]
    epochs: the parameters the optimizer has produced after epoch [n]. *)
Definition diverging_plain (n : nat) : result (tstate (P := Q) (O := Q)) :=
  plain_epochs forward mse_criterion sgd_mse_step None lr_of
               sk_r2_score sk_mean_squared_error
               model identity_loader identity_loader 10
               (seq 0 n) (initial_state heap0 (1 # 2)).

(** The validation pass over the validation data with weight [w] and
    empty metric lists: the loss sum and the metrics per column of
    that pass alone. *)
Definition validation_alone (w : Q) : result (Q * list Q * list Q) :=
  val_batches forward mse_criterion sk_r2_score sk_mean_squared_error
              w (batches identity_loader 1) 0 [] [].

(** The first epoch of the converging run. *)
Definition first_epoch : result (tstate (P := Q) (O := Q) * Q) :=
  epoch_metrics forward mse_criterion sgd_mse_step None lr_of
                sk_r2_score sk_mean_squared_error
                model identity_loader identity_loader 2 0
                (initial_state heap0 (1 # 10)).

(** The per-sample squared errors of the one batch of that epoch. *)
Definition first_epoch_samples : list (list Q) := [[1; 4]].

End Toy.

(** ** The grid-search driver ([manual_optimization.py]) *)

(** [min(l)] *)
Definition py_min (l : list Q) : result Q :=
  match l with
  | [] => Raise ValueError
  | x :: rest =>
      Ok (fold_left (fun m y => match y ?= m with Lt => y | _ => m end) rest x)
  end.

(** One combination.  The learning rates and weight decays come from
    [np.logspace]; a value is named by its index in that array. *)
Record combo : Type := mkCombo {
  c_h1 : nat;
  c_num_layers : nat;
  c_lr : nat;
  c_batch_size : nat;
  c_weight_decay : nat
}.

Definition learning_rates : list nat := seq 0 10.   (* np.logspace(-5, -3, num=10) *)
Definition batch_sizes : list nat := [32; 64; 128]%nat.
Definition weight_decays : list nat := seq 0 10.    (* np.logspace(-6, -1, num=10) *)
Definition h1_values : list nat := [5; 10; 15; 20]%nat.
Definition num_layers_values : list nat := [1; 2; 3]%nat.

(** The combinations in the order of the five nested loops. *)
Definition grid : list combo :=
  h1 ← h1_values;
  num_layers ← num_layers_values;
  lr ← learning_rates;
  batch_size ← batch_sizes;
  weight_decay ← weight_decays;
  [mkCombo h1 num_layers lr batch_size weight_decay].

Section GridSearch.

(** [M]: a trained model.  [S]: what one run leaves to the next (the
    state of the seeded random generators). *)
Context {M S : Type}.

(** Building the loaders, the model and the optimizer of a combination
    and training it for 600 epochs with patience 5: the trained model
    and its validation losses. *)
Variable run : combo -> S -> result (M * list Q * S).

(** The variables of the script. *)
Record gstate : Type := mkG {
  g_best_val_loss : xfloat;
  g_best_params : option combo;
  g_best_model : option M;
  g_trained_model : option M;
  g_rng : S
}.

Definition search_step (c : combo) (g : gstate) : result gstate :=
  '(trained_model, val_losses, rng) ← run c (g_rng g);
  min_val_loss ← py_min val_losses;
  if lt_xfloat min_val_loss (g_best_val_loss g) then
    Ok (mkG (Fin min_val_loss) (Some c) (Some trained_model) (Some trained_model) rng)
  else
    Ok (mkG (g_best_val_loss g) (g_best_params g) (g_best_model g)
            (Some trained_model) rng).

Fixpoint search (cs : list combo) (g : gstate) : result gstate :=
  match cs with
  | [] => Ok g
  | c :: rest => g' ← search_step c g; search rest g'
  end.

(** [torch.save(trained_model.state_dict(), model_save_path)]: the
    model whose parameters are written. *)
Definition saved_model (g : gstate) : result M :=
  match g_trained_model g with
  | Some m => Ok m
  | None => Raise NameError
  end.

(** The script over a list of combinations: the final variables and the
    model written to the snapshot file. *)
Definition grid_search (cs : list combo) (rng : S) : result (gstate * M) :=
  g ← search cs (mkG PInf None None None rng);
  m ← saved_model g;
  Ok (g, m).

End GridSearch.

(** A sweep in which the first combination reaches validation loss 1 and
    every other one validation loss 2; a trained model is named by its
    combination. *)
Definition first_combo : combo := mkCombo 5 1 0 32 0.
Definition last_combo : combo := mkCombo 20 3 9 128 9.

Definition combo_eqb (a b : combo) : bool :=
  ((c_h1 a =? c_h1 b) && (c_num_layers a =? c_num_layers b) && (c_lr a =? c_lr b)
   && (c_batch_size a =? c_batch_size b) && (c_weight_decay a =? c_weight_decay b))%nat.

Definition first_is_best (c : combo) (rng : unit) : result (combo * list Q * unit) :=
  Ok (c, [3; if combo_eqb c first_combo then 1 else 2; 4], rng).

(** ** A small array and its metadata, used to exercise [unscale] *)

Definition sample_info : gmap string (gmap string Q) :=
  <["power" := <["mean" := 10]> (<["std" := 2]> ∅)]>
    (<["pressure" := <["mean" := 1]> (<["std" := 3]> ∅)]> ∅).

Definition sample_array : ndarray := mkArray 2 [[1; 2]; [3; 4]].

Definition sample_world : world := mkWorld {[ 5%nat := sample_array ]} [].

Definition sample_names : list string := ["power"; "pressure"; "flow"]%string.

(** ** [test_model] *)

(** [np.concatenate(arrays)] along the first axis: at least one array,
    none of dimension zero, all of one shape after the first axis. *)
Definition np_concatenate (arrays : list tensor) : result tensor :=
  match arrays with
  | [] => Raise ValueError
  | first :: _ =>
      match shape first with
      | [] => Raise ValueError
      | _ :: tail =>
          if forallb (fun a => match shape a with
                               | [] => false
                               | _ :: tail' => bool_decide (tail' = tail)
                               end) arrays
          then Ok (mkTensor (list_sum (map (fun a => default 0%nat (head (shape a))) arrays) :: tail)
                            (concat (map data arrays)))
          else Raise ValueError
      end
  end.

Section Testing.

Context {P : Type}.
Variable forward : bool -> P -> tensor -> result tensor.
Variable criterion : tensor -> tensor -> result Q.

(** [for inputs, targets in test_loader: ...] *)
Fixpoint test_batches (p : P) (bs : list (tensor * tensor))
    (test_loss : Q) (all_predictions all_targets : list tensor)
    : result (Q * list tensor * list tensor) :=
  match bs with
  | [] => Ok (test_loss, all_predictions, all_targets)
  | (inputs, targets) :: rest =>
      outputst ← forward false p inputs;
      losst ← criterion outputst targets;
      n ← dim inputs 0;
      let test_loss' := test_loss + losst * inject_Z (Z.of_nat n) in
      test_batches p rest test_loss' (all_predictions ++ [outputst]) (all_targets ++ [targets])
  end.

(** [test_model]; [it] numbers the iteration over the loader. *)
Definition test_model (p : P) (test_loader : loader) (it : nat)
    : result (Q * tensor * tensor) :=
  '(test_loss, all_predictions, all_targets) ←
    test_batches p (batches test_loader it) 0 [] [];
  all_predictions ← np_concatenate all_predictions;
  all_targets ← np_concatenate all_targets;
  test_loss ← div_len test_loss (dataset_len test_loader);
  Ok (test_loss, all_predictions, all_targets).

(** The outputs of the model on the batches, in order. *)
Fixpoint batch_outputs (p : P) (bs : list (tensor * tensor)) : result (list tensor) :=
  match bs with
  | [] => Ok []
  | (inputs, _) :: rest =>
      o ← forward false p inputs;
      os ← batch_outputs p rest;
      Ok (o :: os)
  end.

End Testing.

(** ** The models: [nn.Linear], [Model], [Model_dynamic] *)

(** A fully connected layer: [weight o i] is the entry of row [o] and
    column [i] of the weight matrix, [bias o] the entry [o] of the bias. *)
Record linear : Type := mkLinear {
  in_features : nat;
  out_features : nat;
  weight : nat -> nat -> Q;
  bias : nat -> Q
}.

(** The weights and biases a constructor draws: [init k] for the [k]-th
    layer it builds. *)
Definition initializer : Type := nat -> (nat -> nat -> Q) * (nat -> Q).

(** [nn.Linear(i, o)] as the [k]-th layer built. *)
Definition nn_Linear (init : initializer) (k i o : nat) : linear :=
  mkLinear i o (fst (init k)) (snd (init k)).

Definition dot (l : linear) (o : nat) (x : list Q) : Q :=
  Qsum (map (fun i => weight l o i * nth i x 0) (seq 0 (in_features l))).

(** One input row through the layer. *)
Definition linear_row (l : linear) (x : list Q) : list Q :=
  map (fun o => dot l o x + bias l o) (seq 0 (out_features l)).

(** [layer(x)]: the last dimension of [x] must be [in_features]; it
    becomes [out_features]. *)
Definition linear_forward (l : linear) (x : tensor) : result tensor :=
  match last (shape x) with
  | None => Raise RuntimeError
  | Some d =>
      if (d =? in_features l)%nat then
        let batch := removelast (shape x) in
        Ok (mkTensor (batch ++ [out_features l])
                     (concat (map (linear_row l) (chunks d (numel batch) (data x)))))
      else Raise RuntimeError
  end.

(** An activation, element by element. *)
Definition activate (f : Q -> Q) (x : tensor) : tensor :=
  mkTensor (shape x) (map f (data x)).

(** [F.relu] *)
Definition relu (x : Q) : Q := if Qle_bool x 0 then 0 else x.

(** [Model]: two hidden layers and an output layer.  The activation is
    [F.elu] in [utilities.py] and [F.relu] in
    [BASIC_NEURAL_NETWORK_V1.py]. *)
Module Model.

Record t : Type := mk { fc1 : linear; fc2 : linear; out : linear }.

(** [__init__(in_features, h1, h2, out_features)] *)
Definition init (w : initializer) (in_features h1 h2 out_features : nat) : t :=
  mk (nn_Linear w 0 in_features h1) (nn_Linear w 1 h1 h2) (nn_Linear w 2 h2 out_features).

Definition forward (act : Q -> Q) (m : t) (x : tensor) : result tensor :=
  x1 ← linear_forward (fc1 m) x;
  x2 ← linear_forward (fc2 m) (activate act x1);
  linear_forward (out m) (activate act x2).

(** [Model()] of [utilities.py] and [Model()] of
    [BASIC_NEURAL_NETWORK_V1.py]. *)
Definition utilities_default (w : initializer) : t := init w 2 10 10 10.
Definition basic_default (w : initializer) : t := init w 2 10 10 25.

End Model.

(** [Model_dynamic] *)
Module ModelDynamic.

Record t : Type := mk { num_layers : Z; layers : list linear; out : linear }.

(** [__init__(h1, num_layers)] *)
Definition init (w : initializer) (h1 : nat) (num_layers : Z) : t :=
  let layers := nn_Linear w 0 2 h1
                :: map (fun k => nn_Linear w (S k) h1 h1)
                       (seq 0 (Z.to_nat (num_layers - 1))) in
  mk num_layers layers (nn_Linear w (length layers) h1 10).

(** [for i in range(self.num_layers): x = F.elu(self.layers[i](x))] *)
Fixpoint hidden (act : Q -> Q) (layers : list linear) (idxs : list nat) (x : tensor)
    : result tensor :=
  match idxs with
  | [] => Ok x
  | i :: rest =>
      match layers !! i with
      | None => Raise IndexError
      | Some l =>
          y ← linear_forward l x;
          hidden act layers rest (activate act y)
      end
  end.

Definition forward (act : Q -> Q) (m : t) (x : tensor) : result tensor :=
  x' ← hidden act (layers m) (seq 0 (Z.to_nat (num_layers m))) x;
  linear_forward (out m) x'.

End ModelDynamic.

(** ** The training loop of [BASIC_NEURAL_NETWORK_V1.py] *)

Module Basic.

Inductive line : Type := Progress (epoch num_epochs : nat) (train_loss : Q).

Section Loop.

Context {P O : Type}.
Variable forward : bool -> P -> tensor -> result tensor.
Variable criterion : tensor -> tensor -> result Q.
Variable optimizer_step : O -> P -> tensor -> tensor -> O * P.

(** [for inputs, targets in train_loader: ...] *)
Fixpoint train_batches (model : loc) (bs : list (tensor * tensor))
    (h : gmap loc P) (o : O) (train_loss : Q) : result (gmap loc P * O * Q) :=
  match bs with
  | [] => Ok (h, o, train_loss)
  | (inputs, targets) :: rest =>
      p ← deref h model;
      outputs ← forward true p inputs;
      loss ← criterion outputs targets;
      n ← dim inputs 0;
      let train_loss' := train_loss + loss * inject_Z (Z.of_nat n) in
      let '(o', p') := optimizer_step o p inputs targets in
      train_batches model rest (<[model := p']> h) o' train_loss'
  end.

(** [for epoch in range(num_epochs): ...] over the epochs still to run. *)
Fixpoint run_epochs (model : loc) (train_loader : loader) (num_epochs : nat)
    (epochs : list nat) (h : gmap loc P) (o : O) (train_losses : list Q)
    (out : list line) : result (gmap loc P * O * list Q * list line) :=
  match epochs with
  | [] => Ok (h, o, train_losses, out)
  | epoch :: rest =>
      '(h', o', train_loss) ← train_batches model (batches train_loader epoch) h o 0;
      train_loss ← div_len train_loss (dataset_len train_loader);
      let out' :=
        if ((epoch mod 10 =? 0)%nat || (Z.of_nat epoch =? Z.of_nat num_epochs - 1)%Z)%bool
        then out ++ [Progress (S epoch) num_epochs train_loss]
        else out in
      run_epochs model train_loader num_epochs rest h' o' (train_losses ++ [train_loss]) out'
  end.

(** [train_regression_model]: the heap and optimizer at return, the
    returned losses and what was printed. *)
Definition train_regression_model (model : loc) (train_loader : loader)
    (num_epochs : nat) (h : gmap loc P) (o : O)
    : result (gmap loc P * O * list Q * list line) :=
  run_epochs model train_loader num_epochs (seq 0 num_epochs) h o [] [].

End Loop.

End Basic.

(** ** [objective] ([optimization_utility.py]) *)

Section Objective.

Context {P O : Type}.
Variable forward : bool -> P -> tensor -> result tensor.
Variable criterion : tensor -> tensor -> result Q.
Variable optimizer_step : O -> P -> tensor -> tensor -> O * P.
(** The plateau scheduler's [step]. *)
Variable plateau_step : Q -> O -> O.
Variable lr_of : O -> Q.
Variable r2_score mean_squared_error : list Q -> list Q -> result Q.

(** The loaders, the model, the optimizer and the scheduler are built
    from the values the trial suggests; the run has patience 10 and the
    value returned is the smallest validation loss. *)
Definition objective (model : loc) (train_loader val_loader : loader)
    (num_of_epochs : nat) (h : gmap loc P) (o : O) : result Q :=
  '(_, (_, _, val_losses)) ←
    train_regression_model forward criterion optimizer_step (Some plateau_step) lr_of
                           r2_score mean_squared_error
                           model train_loader val_loader num_of_epochs 10 h o;
  py_min val_losses.

End Objective.

(** ** What a sweep yields, run by run *)

Section SweepResults.

Context {M S : Type}.
Variable run : combo -> S -> result (M * list Q * S).

(** For every combination in order: the combination, its trained model
    and its smallest validation loss. *)
Fixpoint sweep_results (cs : list combo) (rng : S) : result (list (combo * M * Q)) :=
  match cs with
  | [] => Ok []
  | c :: rest =>
      '(m, val_losses, rng') ← run c rng;
      v ← py_min val_losses;
      rs ← sweep_results rest rng';
      Ok ((c, m, v) :: rs)
  end.

(** The best triple of the script belongs to one of the runs seen so
    far, the one of least validation loss; before the first run nothing
    is trained. *)
Definition chosen (g : gstate (M := M) (S := S)) (seen : list (combo * M * Q)) : Prop :=
  (seen = [] /\ g_trained_model g = None) \/
  exists c m v,
    In (c, m, v) seen /\
    g_best_params g = Some c /\ g_best_model g = Some m /\ g_best_val_loss g = Fin v /\
    Forall (fun r : combo * M * Q => v <= snd r) seen.

End SweepResults.

(** A tensor whose number of elements is the product of its shape. *)
Definition tensor_wf (t : tensor) : Prop := length (data t) = numel (shape t).

(** The epochs for which a progress report is due. *)
Definition report_due (num_epochs epoch : nat) : bool :=
  ((epoch mod 10 =? 0)%nat || (Z.of_nat epoch =? Z.of_nat num_epochs - 1)%Z)%bool.

(** ** What the early-stopping variables track *)

(** [best_val_loss] is [float("inf")] before the first epoch and
    [min(val_losses)] afterwards. *)
Definition tracks_minimum {P O : Type} (s : tstate (P := P) (O := O)) : Prop :=
  (val_losses s = [] /\ best_val_loss s = PInf) \/
  (exists m, py_min (val_losses s) = Ok m /\ best_val_loss s = Fin m).

(** ** Further instances used to exercise the properties *)

(** A processed column without its metadata. *)
Definition lacks_metadata (scaling_info : gmap string (gmap string Q))
    (column : string) : Prop :=
  scaling_lookup scaling_info column "mean" = Raise KeyError \/
  scaling_lookup scaling_info column "std" = Raise KeyError.

Module Toy2.

(** A criterion that agrees with the mean squared error on equal shapes
    and answers 0 elsewhere. *)
Definition lenient_criterion (outputs targets : tensor) : result Q :=
  if decide (shape outputs = shape targets) then Toy.mse_criterion outputs targets
  else Ok 0.

(** An initializer: every weight 1/2, every bias 1. *)
Definition halves : initializer := fun _ => (fun _ _ => 1 # 2, fun _ => 1).

(** A batch of two inputs with two features. *)
Definition inputs2 : tensor := mkTensor [2%nat; 2%nat] [1; 2; 3; 4].

(** A test loader of two batches. *)
Definition test_loader : loader :=
  mkLoader 4 (fun _ => [(Toy.xs, Toy.xs); (Toy.xs, Toy.xs)]).

(** A loader that yields nothing although its dataset has four samples. *)
Definition silent_loader : loader := mkLoader 4 (fun _ => []).

(** A sweep of three combinations. *)
Definition small_grid : list combo :=
  [mkCombo 5 1 0 32 0; mkCombo 10 1 0 32 0; mkCombo 15 1 0 32 0].

Definition small_run (c : combo) (rng : unit) : result (combo * list Q * unit) :=
  Ok (c, [Qabs (inject_Z (Z.of_nat (c_h1 c)) - 10) + 1; 7], rng).

(** A second column of predictions. *)
Definition ys : tensor := mkTensor [2%nat; 1%nat] [3; 1].

(** Names of which the second has no metadata. *)
Definition names_missing : list string := ["power"; "flow"]%string.

(** A plateau scheduler whose patience is never exhausted. *)
Definition plateau_step (val_loss lr : Q) : Q := lr.

(** [objective] on the toy data, three epochs. *)
Definition objective_run : result Q :=
  objective Toy.forward Toy.mse_criterion Toy.sgd_mse_step plateau_step Toy.lr_of
            sk_r2_score sk_mean_squared_error
            Toy.model Toy.identity_loader Toy.identity_loader 3 Toy.heap0 (1 # 10).

(** The loop of [BASIC_NEURAL_NETWORK_V1.py] on the toy data, two epochs. *)
Definition basic_run : result (gmap loc Q * Q * list Q * list Basic.line) :=
  Basic.train_regression_model Toy.forward Toy.mse_criterion Toy.sgd_mse_step
                               Toy.model Toy.identity_loader 2 Toy.heap0 (1 # 10).

End Toy2.

(** * Properties *)

(** ** Loss functions *)

Lemma tensor_mean_reduce_spec (se : tensor) :
  tensor_mean se = WeightedMse.reduce_spec "mean" se.
Proof.
  unfold tensor_mean, WeightedMse.reduce_spec.
  rewrite decide_True by reflexivity.
  destruct (data se); reflexivity.
Qed.

(** C6. [calculate_weighted_mse.forward] raises exactly when the shapes of
    prediction and target differ; on equal shapes it returns the tensor of
    elementwise squared differences reduced by the mode of the object: its
    mean for 'mean', its sum for 'sum', the tensor itself otherwise. *)
Theorem weighted_mse_forward_spec (reduction : string) (input target : tensor) :
  (is_raise (WeightedMse.forward reduction input target) <-> shape input <> shape target) /\
  (shape input = shape target ->
   exists se : tensor,
     shape se = shape input /\
     length (data se) = Nat.min (length (data input)) (length (data target)) /\
     (forall k a b, data input !! k = Some a -> data target !! k = Some b ->
                    data se !! k = Some ((a - b) ^ 2)) /\
     WeightedMse.forward reduction input target
       = Ok (WeightedMse.reduce_spec reduction se)).
Proof.
  unfold WeightedMse.forward. split.
  - destruct (decide (shape input = shape target)) as [Heq | Hne].
    + split; [| tauto]. intros [e He].
      repeat case_decide; discriminate.
    + split; [tauto |]. intros _. exists ValueError. reflexivity.
  - intros Heq. exists (WeightedMse.squared_error input target).
    repeat split.
    + cbn. apply length_zip_with.
    + intros k a b Ha Hb. cbn. rewrite lookup_zip_with, Ha, Hb. reflexivity.
    + rewrite decide_True by assumption.
      unfold WeightedMse.reduce_spec.
      destruct (decide (reduction = "mean"%string)) as [-> | Hm].
      * rewrite tensor_mean_reduce_spec. unfold WeightedMse.reduce_spec.
        rewrite decide_True by reflexivity. reflexivity.
      * destruct (decide (reduction = "sum"%string)); reflexivity.
Qed.

Lemma weighted_mse_forward_spec_witness :
  exists se : tensor,
    shape se = [2%nat] /\
    length (data se) = 2%nat /\
    (forall k a b, [3; 5] !! k = Some a -> [1; 2] !! k = Some b ->
                   data se !! k = Some ((a - b) ^ 2)) /\
    WeightedMse.forward "sum" (mkTensor [2%nat] [3; 5]) (mkTensor [2%nat] [1; 2])
      = Ok (WeightedMse.reduce_spec "sum" se).
Proof.
  apply (proj2 (weighted_mse_forward_spec "sum" (mkTensor [2%nat] [3; 5])
                                          (mkTensor [2%nat] [1; 2]))).
  reflexivity.
Defined.

(** The rational element function and the real one are one function. *)
Lemma huber_elem_Q2R (delta error : Q) :
  Q2R (Huber.huber_elem delta error) = Huber.huber_elemR (Q2R delta) (Q2R error).
Proof.
  unfold Huber.huber_elem, Huber.huber_elemR.
  destruct (Qle_bool error delta) eqn:Hle; destruct (Rle_dec (Q2R error) (Q2R delta)) as [HR | HR].
  - unfold Huber.squared_branch, Huber.squared_branchR.
    rewrite Q2R_mult. change (error ^ 2) with (error * error).
    rewrite Q2R_mult. change (Q2R (1 # 2)) with (1 * / 2)%R. simpl. lra.
  - exfalso. apply HR, Qle_Rle, Qle_bool_iff, Hle.
  - exfalso. apply Rle_Qle, Qle_bool_iff in HR. congruence.
  - unfold Huber.linear_branch, Huber.linear_branchR.
    rewrite Q2R_mult, Q2R_minus, Q2R_mult.
    change (Q2R (1 # 2)) with (1 * / 2)%R. lra.
Qed.

Lemma half_abs_lt (h eps : R) : (Rabs h < eps)%R -> (Rabs (h / 2) < eps)%R.
Proof.
  unfold Rabs. destruct (Rcase_abs h), (Rcase_abs (h / 2)); lra.
Qed.

Lemma squared_branch_slope (e : R) : derivable_pt_lim Huber.squared_branchR e e.
Proof.
  intros eps Heps. exists (mkposreal eps Heps). intros h Hh Hlt. cbn in Hlt.
  unfold Huber.squared_branchR.
  replace ((1 / 2 * (e + h) ^ 2 - 1 / 2 * e ^ 2) / h - e)%R with (h / 2)%R
    by (field; assumption).
  apply half_abs_lt, Hlt.
Qed.

Lemma linear_branch_slope (delta e : R) :
  derivable_pt_lim (Huber.linear_branchR delta) e delta.
Proof.
  intros eps Heps. exists (mkposreal eps Heps). intros h Hh _.
  unfold Huber.linear_branchR.
  replace ((delta * (e + h - 1 / 2 * delta) - delta * (e - 1 / 2 * delta)) / h - delta)%R
    with 0%R by (field; assumption).
  rewrite Rabs_R0. assumption.
Qed.

(** C7. The squared branch and the linear branch of the Huber loss agree
    at error = delta in value and in slope, for every delta (so for every
    delta > 0), and the loss itself, which switches branch there, has that
    slope at delta. *)
Theorem huber_branches_agree_at_delta (delta : R) :
  Huber.squared_branchR delta = Huber.linear_branchR delta delta /\
  derivable_pt_lim Huber.squared_branchR delta delta /\
  derivable_pt_lim (Huber.linear_branchR delta) delta delta /\
  derivable_pt_lim (Huber.huber_elemR delta) delta delta.
Proof.
  split; [unfold Huber.squared_branchR, Huber.linear_branchR; lra |].
  split; [apply squared_branch_slope |].
  split; [apply linear_branch_slope |].
  intros eps Heps. exists (mkposreal eps Heps). intros h Hh Hlt. cbn in Hlt.
  unfold Huber.huber_elemR.
  destruct (Rle_dec delta delta) as [_ | Hn]; [| lra].
  destruct (Rle_dec (delta + h) delta) as [Hle | Hgt];
    unfold Huber.squared_branchR, Huber.linear_branchR.
  - replace ((1 / 2 * (delta + h) ^ 2 - 1 / 2 * delta ^ 2) / h - delta)%R
      with (h / 2)%R by (field; assumption).
    apply half_abs_lt, Hlt.
  - replace ((delta * (delta + h - 1 / 2 * delta) - 1 / 2 * delta ^ 2) / h - delta)%R
      with 0%R by (field; assumption).
    rewrite Rabs_R0. assumption.
Qed.

(** ** [unscale] *)

Lemma entry_set_col_ne (i j : nat) (col : list Q) (u : ndarray) (r : nat) :
  i <> j -> (length (rows u) <= length col)%nat ->
  entry (set_col i col u) r j = entry u r j.
Proof.
  intros Hne Hlen. unfold entry, set_col. cbn.
  rewrite lookup_zip_with.
  destruct (rows u !! r) as [row |] eqn:Hrow; cbn; [| reflexivity].
  apply lookup_lt_Some in Hrow.
  destruct (lookup_lt_is_Some_2 col r ltac:(lia)) as [v Hv].
  rewrite Hv. cbn. apply list_lookup_insert_ne, Hne.
Qed.

Lemma entry_set_col_eq (i : nat) (col : list Q) (u : ndarray) (r : nat) (x v : Q) :
  entry u r i = Some x -> col !! r = Some v ->
  entry (set_col i col u) r i = Some v.
Proof.
  unfold entry, set_col. cbn. intros Hx Hv.
  rewrite lookup_zip_with.
  destruct (rows u !! r) as [row |]; [| discriminate]. cbn.
  rewrite Hv. cbn. apply list_lookup_insert_eq.
  eapply lookup_lt_Some, Hx.
Qed.

Lemma get_col_lookup (i : nat) (d : ndarray) (r : nat) (x : Q) :
  entry d r i = Some x -> get_col i d !! r = Some x.
Proof.
  unfold entry, get_col. intros Hx.
  rewrite list_lookup_fmap.
  destruct (rows d !! r) as [row |]; [| discriminate]. cbn.
  f_equal. apply nth_lookup_Some with (d := 0) in Hx. exact Hx.
Qed.

Lemma set_col_rows_length (i : nat) (col : list Q) (u : ndarray) :
  length col = length (rows u) -> length (rows (set_col i col u)) = length (rows u).
Proof. intros H. cbn. rewrite length_zip_with. lia. Qed.

Section UnscaleLoop.

Variable scaling_info : gmap string (gmap string Q).
Variable num_columns : nat.
Variables data unscaled_data : loc.
Variable d : ndarray.
Hypothesis Hdistinct : data <> unscaled_data.

(** Whatever the outcome of the loop, it writes one array only, and in
    that array only the columns it was asked for, below [num_columns]. *)
Lemma unscale_loop_frame (column_names : list string) :
  forall (i : nat) (w : world) (u : ndarray) (res : result unit) (w' : world),
    heap w !! data = Some d ->
    heap w !! unscaled_data = Some u ->
    length (rows u) = length (rows d) ->
    unscale_loop scaling_info num_columns data unscaled_data i column_names w = (res, w') ->
    exists u',
      heap w' = <[unscaled_data := u']> (heap w) /\
      ncols u' = ncols u /\
      length (rows u') = length (rows d) /\
      forall r j, (j < i \/ i + length column_names <= j \/ num_columns <= j)%nat ->
                  entry u' r j = entry u r j.
Proof.
  induction column_names as [| column rest IH]; intros i w u res w' Hd Hu Hlen Hrun.
  - cbn in Hrun. injection Hrun as <- <-. exists u.
    rewrite insert_id by assumption. auto.
  - cbn in Hrun.
    destruct (num_columns <=? i)%nat eqn:Hge.
    { injection Hrun as <- <-. exists u. cbn.
      rewrite insert_id by assumption. auto. }
    apply Nat.leb_gt in Hge.
    destruct (scaling_lookup scaling_info column "mean") as [mean | e].
    2:{ injection Hrun as <- <-. exists u. rewrite insert_id by assumption. auto. }
    destruct (scaling_lookup scaling_info column "std") as [std | e].
    2:{ injection Hrun as <- <-. exists u. rewrite insert_id by assumption. auto. }
    rewrite Hd, Hu in Hrun.
    set (col := map (fun x => x * std + mean) (get_col i d)) in Hrun.
    assert (Hcol : length col = length (rows u)).
    { unfold col, get_col. rewrite !length_map. lia. }
    apply IH with (u := set_col i col u) in Hrun; cbn.
    + destruct Hrun as (u' & Hheap & Hnc & Hrows & Hsame).
      exists u'. cbn in Hheap. rewrite insert_insert_eq in Hheap.
      repeat split; try assumption.
      intros r j Hj. rewrite Hsame by lia.
      apply entry_set_col_ne; lia.
    + rewrite lookup_insert_ne by (intros Heq; apply Hdistinct; congruence). exact Hd.
    + apply lookup_insert_eq.
    + rewrite length_zip_with. lia.
Qed.

(** With the metadata of every processed column at hand the loop ends
    normally: it rescales the requested columns below [num_columns] and
    prints one warning when a name is left over. *)
Lemma unscale_loop_ok (column_names : list string) :
  forall (i : nat) (w : world) (u : ndarray),
    heap w !! data = Some d ->
    heap w !! unscaled_data = Some u ->
    length (rows u) = length (rows d) ->
    (forall r j, (i <= j)%nat -> entry u r j = entry d r j) ->
    (i <= num_columns)%nat ->
    (forall k column, (i + k < num_columns)%nat -> column_names !! k = Some column ->
       exists mean std,
         scaling_lookup scaling_info column "mean" = Ok mean /\
         scaling_lookup scaling_info column "std" = Ok std) ->
    exists w',
      unscale_loop scaling_info num_columns data unscaled_data i column_names w = (Ok tt, w') /\
      stdout w' = stdout w ++
                  (if decide (num_columns < i + length column_names)%nat
                   then [warning_message num_columns num_columns] else []) /\
      forall u', heap w' !! unscaled_data = Some u' ->
        forall r k column x,
          (i + k < num_columns)%nat -> column_names !! k = Some column ->
          entry d r (i + k) = Some x ->
          exists mean std,
            scaling_lookup scaling_info column "mean" = Ok mean /\
            scaling_lookup scaling_info column "std" = Ok std /\
            entry u' r (i + k) = Some (x * std + mean).
Proof.
  induction column_names as [| column rest IH]; intros i w u Hd Hu Hlen Hrest Hle Hmeta.
  - exists w. cbn. rewrite decide_False by lia. rewrite app_nil_r.
    repeat split. intros u' _ r k column x _ Hk. discriminate.
  - cbn [unscale_loop].
    destruct (num_columns <=? i)%nat eqn:Hge.
    { apply Nat.leb_le in Hge. assert (i = num_columns) as -> by lia.
      eexists. split; [reflexivity |]. cbn.
      rewrite decide_True by lia. split; [reflexivity |].
      intros; lia. }
    apply Nat.leb_gt in Hge.
    destruct (Hmeta 0%nat column ltac:(lia) eq_refl) as (mean & std & Hmean & Hstd).
    rewrite Hmean, Hstd, Hd, Hu.
    set (col := map (fun x => x * std + mean) (get_col i d)).
    assert (Hcol : length col = length (rows u)).
    { unfold col, get_col. rewrite !length_map. lia. }
    set (w1 := mkWorld (<[unscaled_data := set_col i col u]> (heap w)) (stdout w)).
    assert (Hd1 : heap w1 !! data = Some d).
    { cbn. rewrite lookup_insert_ne by (intros Heq; apply Hdistinct; congruence). exact Hd. }
    assert (Hu1 : heap w1 !! unscaled_data = Some (set_col i col u)) by apply lookup_insert_eq.
    assert (Hlen1 : length (rows (set_col i col u)) = length (rows d)).
    { rewrite set_col_rows_length; assumption. }
    destruct (IH (S i) w1 (set_col i col u) Hd1 Hu1 Hlen1) as (w' & Hrun & Hout & Hvals).
    + intros r j Hj. rewrite entry_set_col_ne by lia. apply Hrest. lia.
    + lia.
    + intros k c Hk Hc. apply (Hmeta (S k) c); [lia | exact Hc].
    + exists w'. split; [exact Hrun |]. split.
      * rewrite Hout. cbn [stdout w1]. f_equal. cbn [length].
        destruct (decide (num_columns < S i + length rest)%nat),
                 (decide (num_columns < i + S (length rest))%nat); try reflexivity; lia.
      * intros u' Hu' r k c x Hk Hc Hx.
        destruct k as [| k].
        -- cbn in Hc. injection Hc as <-. exists mean, std.
           repeat split; try assumption.
           destruct (unscale_loop_frame rest (S i) w1 (set_col i col u) (Ok tt) w'
                       Hd1 Hu1 Hlen1 Hrun) as (u'' & Hheap & _ & _ & Hsame).
           rewrite Hheap, lookup_insert_eq in Hu'. injection Hu' as <-.
           rewrite Hsame by lia. rewrite Nat.add_0_r in *.
           apply entry_set_col_eq with (x := x).
           ++ rewrite Hrest by lia. exact Hx.
           ++ unfold col. rewrite list_lookup_fmap.
              rewrite (get_col_lookup _ _ _ _ Hx). reflexivity.
        -- replace (i + S k)%nat with (S i + k)%nat in * by lia.
           apply (Hvals u' Hu' r k c x); assumption.
Qed.

End UnscaleLoop.

Lemma fresh_loc_unused (w : world) : heap w !! fresh (dom (heap w)) = None.
Proof. apply not_elem_of_dom, is_fresh. Qed.

Lemma fresh_loc_distinct (w : world) (data : loc) (d : ndarray) :
  heap w !! data = Some d -> data <> fresh (dom (heap w)).
Proof.
  intros Hd Heq. pose proof (fresh_loc_unused w) as Hf.
  rewrite <- Heq, Hd in Hf. discriminate.
Qed.

(** C8. [unscale] rebuilds every requested column [i] below the number of
    columns of the data as [data[:, i] * std + mean] with the metadata of
    that column's name; when more names are requested than the data has
    columns it handles the first [num_columns] names only, prints one
    warning and returns normally (the metadata of the names left over is
    not even looked up). *)
Theorem unscale_rescales_and_truncates
    (data : loc) (column_names : list string)
    (scaling_info : gmap string (gmap string Q)) (w : world) (d : ndarray) :
  heap w !! data = Some d ->
  has_metadata scaling_info column_names (Nat.min (length column_names) (ncols d)) ->
  exists (out : loc) (w' : world) (u : ndarray),
    unscale data column_names scaling_info w = (Ok out, w') /\
    stdout w' = stdout w ++
                (if decide (ncols d < length column_names)%nat
                 then [warning_message (ncols d) (ncols d)] else []) /\
    heap w' !! out = Some u /\
    (forall r i column x,
       (i < Nat.min (length column_names) (ncols d))%nat ->
       column_names !! i = Some column ->
       entry d r i = Some x ->
       exists mean std,
         scaling_lookup scaling_info column "mean" = Ok mean /\
         scaling_lookup scaling_info column "std" = Ok std /\
         entry u r i = Some (x * std + mean)) /\
    (forall r j, (Nat.min (length column_names) (ncols d) <= j)%nat ->
                 entry u r j = entry d r j).
Proof.
  intros Hd Hmeta. unfold unscale. rewrite Hd.
  set (out := fresh (dom (heap w))).
  set (w1 := mkWorld (<[out := d]> (heap w)) (stdout w)).
  pose proof (fresh_loc_distinct w data d Hd) as Hne. fold out in Hne.
  assert (Hd1 : heap w1 !! data = Some d).
  { cbn. rewrite lookup_insert_ne by congruence. exact Hd. }
  assert (Hu1 : heap w1 !! out = Some d) by apply lookup_insert_eq.
  destruct (unscale_loop_ok scaling_info (ncols d) data out d Hne column_names
              0%nat w1 d Hd1 Hu1 eq_refl) as (w' & Hrun & Hout & Hvals).
  - reflexivity.
  - lia.
  - intros k column Hk Hc. apply (Hmeta k column); [| exact Hc].
    apply lookup_lt_Some in Hc. cbn in Hk. lia.
  - destruct (unscale_loop_frame scaling_info (ncols d) data out d Hne column_names
                0%nat w1 d (Ok tt) w' Hd1 Hu1 eq_refl Hrun)
      as (u & Hheap & _ & _ & Hsame).
    exists out, w', u. rewrite Hrun.
    assert (Hu : heap w' !! out = Some u) by (rewrite Hheap; apply lookup_insert_eq).
    repeat split; try assumption.
    + intros r i column x Hi Hc Hx.
      apply (Hvals u Hu r i column x); [cbn; lia | exact Hc | exact Hx].
    + intros r j Hj. apply Hsame. cbn. lia.
Qed.

Lemma unscale_rescales_and_truncates_witness :
  exists (out : loc) (w' : world) (u : ndarray),
    unscale 5%nat sample_names sample_info sample_world = (Ok out, w') /\
    stdout w' = stdout sample_world ++
                (if decide (ncols sample_array < length sample_names)%nat
                 then [warning_message (ncols sample_array) (ncols sample_array)] else []) /\
    heap w' !! out = Some u /\
    (forall r i column x,
       (i < Nat.min (length sample_names) (ncols sample_array))%nat ->
       sample_names !! i = Some column ->
       entry sample_array r i = Some x ->
       exists mean std,
         scaling_lookup sample_info column "mean" = Ok mean /\
         scaling_lookup sample_info column "std" = Ok std /\
         entry u r i = Some (x * std + mean)) /\
    (forall r j, (Nat.min (length sample_names) (ncols sample_array) <= j)%nat ->
                 entry u r j = entry sample_array r j).
Proof.
  apply (unscale_rescales_and_truncates 5%nat sample_names sample_info
                                        sample_world sample_array).
  - reflexivity.
  - intros i column Hi Hc.
    destruct i as [| [| i]]; cbn in Hc.
    + injection Hc as <-. exists 10, 2. split; reflexivity.
    + injection Hc as <-. exists 1, 3. split; reflexivity.
    + cbn in Hi. lia.
Defined.

(** C10. [unscale] does not write to its input: the array it was given
    is the same afterwards, whether it returns or raises; the array it
    returns is a new one, and in it every column that no requested name
    covers, and every column from the number of columns on, holds the
    values of the input. *)
Theorem unscale_leaves_input_untouched
    (data : loc) (column_names : list string)
    (scaling_info : gmap string (gmap string Q)) (w : world) (d : ndarray) :
  heap w !! data = Some d ->
  let res := unscale data column_names scaling_info w in
  heap (snd res) !! data = Some d /\
  exists (new : loc) (u : ndarray),
    new <> data /\
    heap w !! new = None /\
    heap (snd res) = <[new := u]> (heap w) /\
    (forall out, fst res = Ok out -> out = new) /\
    ncols u = ncols d /\
    length (rows u) = length (rows d) /\
    (forall r j, (length column_names <= j \/ ncols d <= j)%nat ->
                 entry u r j = entry d r j).
Proof.
  intros Hd res. subst res. unfold unscale. rewrite Hd.
  set (new := fresh (dom (heap w))).
  set (w1 := mkWorld (<[new := d]> (heap w)) (stdout w)).
  pose proof (fresh_loc_distinct w data d Hd) as Hne. fold new in Hne.
  assert (Hd1 : heap w1 !! data = Some d).
  { cbn. rewrite lookup_insert_ne by congruence. exact Hd. }
  assert (Hu1 : heap w1 !! new = Some d) by apply lookup_insert_eq.
  destruct (unscale_loop scaling_info (ncols d) data new 0 column_names w1)
    as [r w2] eqn:Hrun.
  destruct (unscale_loop_frame scaling_info (ncols d) data new d Hne column_names
              0%nat w1 d r w2 Hd1 Hu1 eq_refl Hrun)
    as (u & Hheap & Hnc & Hrows & Hsame).
  cbn in Hheap. rewrite insert_insert_eq in Hheap.
  assert (Hsnd : heap (snd (match r with
                            | Ok _ => (Ok new, w2)
                            | Raise e => (Raise e, w2)
                            end)) = <[new := u]> (heap w)).
  { destruct r; exact Hheap. }
  split.
  - rewrite Hsnd, lookup_insert_ne by congruence. exact Hd.
  - exists new, u. repeat split; try assumption.
    + congruence.
    + apply fresh_loc_unused.
    + intros out Hout. destruct r; cbn in Hout; congruence.
    + intros r' j Hj. apply Hsame. cbn. lia.
Qed.

Lemma unscale_leaves_input_untouched_witness :
  let res := unscale 5%nat sample_names sample_info sample_world in
  heap (snd res) !! 5%nat = Some sample_array /\
  exists (new : loc) (u : ndarray),
    new <> 5%nat /\
    heap sample_world !! new = None /\
    heap (snd res) = <[new := u]> (heap sample_world) /\
    (forall out, fst res = Ok out -> out = new) /\
    ncols u = ncols sample_array /\
    length (rows u) = length (rows sample_array) /\
    (forall r j, (length sample_names <= j \/ ncols sample_array <= j)%nat ->
                 entry u r j = entry sample_array r j).
Proof.
  apply (unscale_leaves_input_untouched 5%nat sample_names sample_info
                                        sample_world sample_array).
  reflexivity.
Defined.

(** ** The training loop *)

Lemma bind_Ok {A B : Type} (r : result A) (k : A -> result B) (b : B) :
  r ≫= k = Ok b -> exists a, r = Ok a /\ k a = Ok b.
Proof.
  destruct r as [a | e]; cbn; intros H; [eauto | discriminate].
Qed.

Ltac bind_inv H :=
  let a := fresh "a" in
  let Ha := fresh "Hbind" in
  apply bind_Ok in H; destruct H as (a & Ha & H).

Lemma weighted_sum_of_means (samples : list (list Q)) :
  Forall (fun b => b <> []) samples ->
  weighted_loss_sum
    (map (fun b => (Qsum b / inject_Z (Z.of_nat (length b)), length b)) samples)
  == Qsum (concat samples).
Proof.
  assert (Hfold : forall (l : list Q) (a : Q), fold_left Qplus l a == a + Qsum l).
  { induction l as [| x l IH]; intros a; unfold Qsum; cbn.
    - ring.
    - rewrite (IH (a + x)), (IH (0 + x)). ring. }
  assert (Happ : forall l k : list Q, Qsum (l ++ k) == Qsum l + Qsum k).
  { intros l k. unfold Qsum at 1. rewrite fold_left_app, Hfold.
    unfold Qsum. reflexivity. }
  induction 1 as [| b rest Hb _ IH]; cbn -[Qsum].
  - reflexivity.
  - rewrite Happ, IH. apply Qplus_inj_r.
    field. destruct b; [congruence |].
    intros H0. apply (Qeq_bool_neq (inject_Z (Z.of_nat (length (q :: b)))) 0); [| exact H0].
    unfold Qeq_bool. cbn. reflexivity.
Qed.

Section TrainingFacts.

Context {P O : Type}.
Variable forward : bool -> P -> tensor -> result tensor.
Variable criterion : tensor -> tensor -> result Q.
Variable optimizer_step : O -> P -> tensor -> tensor -> O * P.
Variable scheduler : option (Q -> O -> O).
Variable lr_of : O -> Q.
Variable r2_score mean_squared_error : list Q -> list Q -> result Q.
Variable model : loc.
Variables train_loader val_loader : loader.
Variable num_epochs : nat.
Variable patience : Z.

Local Abbreviation state := (tstate (P := P) (O := O)).
Local Abbreviation epoch_metrics' :=
  (epoch_metrics forward criterion optimizer_step scheduler lr_of
                 r2_score mean_squared_error model train_loader val_loader num_epochs).
Local Abbreviation run_epochs' :=
  (run_epochs forward criterion optimizer_step scheduler lr_of
              r2_score mean_squared_error model train_loader val_loader
              num_epochs patience).
Local Abbreviation plain_epochs' :=
  (plain_epochs forward criterion optimizer_step scheduler lr_of
                r2_score mean_squared_error model train_loader val_loader num_epochs).

(** The accumulator of the batch loop is the sum of loss times batch
    size over the batches. *)
Lemma train_batches_sum (bs : list (tensor * tensor)) :
  forall h o outputs acc h' o' outputs' train_loss,
    train_batches forward criterion optimizer_step model bs h o outputs acc
      = Ok (h', o', outputs', train_loss) ->
    exists ls,
      batch_losses forward criterion optimizer_step model bs h o = Ok ls /\
      train_loss == acc + weighted_loss_sum ls.
Proof.
  induction bs as [| [inputs targets] rest IH];
    intros h o outputs acc h' o' outputs' train_loss Hrun.
  - cbn in Hrun. injection Hrun as <- <- <- <-. exists []. split; [reflexivity |].
    cbn. ring.
  - cbn [train_batches batch_losses] in *.
    bind_inv Hrun. rewrite Hbind. cbn.
    bind_inv Hrun. rewrite Hbind0. cbn.
    destruct (decide (shape a0 = shape targets)); [| discriminate].
    bind_inv Hrun. rewrite Hbind1. cbn.
    bind_inv Hrun. rewrite Hbind2. cbn.
    destruct (optimizer_step o a inputs targets) as [o1 p1].
    apply IH in Hrun. destruct Hrun as (ls & Hls & Hsum).
    rewrite Hls. cbn. eexists. split; [reflexivity |].
    rewrite Hsum. cbn. ring.
Qed.

Lemma epoch_metrics_train_loss (epoch : nat) (s s' : state) (val_loss : Q) :
  epoch_metrics' epoch s = Ok (s', val_loss) ->
  exists h o outputs acc train_loss,
    train_batches forward criterion optimizer_step model
                  (batches train_loader epoch) (st_heap s) (st_opt s) (st_outputs s) 0
      = Ok (h, o, outputs, acc) /\
    div_len acc (dataset_len train_loader) = Ok train_loss /\
    st_heap s' = h /\
    train_losses s' = train_losses s ++ [train_loss].
Proof.
  unfold epoch_metrics. intros H.
  bind_inv H. destruct a as [[[h o] outputs] acc].
  bind_inv H. bind_inv H. bind_inv H. destruct a1 as [[vl r2s] mses].
  bind_inv H. bind_inv H. injection H as <- <-.
  exists h, o, outputs, acc, a. auto.
Qed.

(** C9. The training loss recorded for an epoch is the sum, over the
    batches of the epoch, of batch loss times batch size, divided by the
    length of the training dataset; when every batch loss is the mean of
    the losses of its samples and the batches make up the dataset, that
    is the mean loss per sample. *)
Theorem recorded_train_loss_is_weighted_mean
    (epoch : nat) (s s' : state) (val_loss : Q) :
  epoch_metrics' epoch s = Ok (s', val_loss) ->
  exists ls train_loss,
    batch_losses forward criterion optimizer_step model
                 (batches train_loader epoch) (st_heap s) (st_opt s) = Ok ls /\
    train_losses s' = train_losses s ++ [train_loss] /\
    train_loss == weighted_loss_sum ls / inject_Z (Z.of_nat (dataset_len train_loader)) /\
    (forall samples : list (list Q),
       ls = map (fun b => (Qsum b / inject_Z (Z.of_nat (length b)), length b)) samples ->
       Forall (fun b => b <> []) samples ->
       dataset_len train_loader = length (concat samples) ->
       train_loss == Qsum (concat samples) / inject_Z (Z.of_nat (length (concat samples)))).
Proof.
  intros H.
  destruct (epoch_metrics_train_loss epoch s s' val_loss H)
    as (h & o & outputs & acc & train_loss & Hrun & Hdiv & _ & Hrec).
  destruct (train_batches_sum _ _ _ _ _ _ _ _ _ Hrun) as (ls & Hls & Hsum).
  unfold div_len in Hdiv.
  destruct (dataset_len train_loader =? 0)%nat; [discriminate |].
  injection Hdiv as <-.
  assert (Hmean : acc / inject_Z (Z.of_nat (dataset_len train_loader))
                  == weighted_loss_sum ls / inject_Z (Z.of_nat (dataset_len train_loader))).
  { rewrite Hsum. unfold Qdiv. ring. }
  exists ls, (acc / inject_Z (Z.of_nat (dataset_len train_loader))).
  repeat split; try assumption.
  intros samples -> Hne Hlen.
  rewrite Hmean, Hlen, weighted_sum_of_means by assumption. reflexivity.
Qed.

(** The metrics part of an epoch neither reads nor writes the
    early-stopping variables. *)
Lemma epoch_metrics_same_training (epoch : nat) (s t s1 : state) (v : Q) :
  same_training s t ->
  epoch_metrics' epoch s = Ok (s1, v) ->
  exists t1,
    epoch_metrics' epoch t = Ok (t1, v) /\
    same_training s1 t1 /\
    best_val_loss t1 = best_val_loss t /\
    early_counter t1 = early_counter t /\
    best_model_state t1 = best_model_state t /\
    best_val_loss s1 = best_val_loss s /\
    early_counter s1 = early_counter s /\
    best_model_state s1 = best_model_state s.
Proof.
  destruct s, t. unfold same_training. cbn.
  intros (-> & -> & -> & -> & -> & -> & ->) H.
  unfold epoch_metrics in *. cbn in *.
  bind_inv H. rewrite Hbind. cbn. destruct a as [[[h o] outputs] acc].
  bind_inv H. rewrite Hbind0. cbn.
  bind_inv H. rewrite Hbind1. cbn.
  bind_inv H. rewrite Hbind2. cbn. destruct a1 as [[vl r2s] mses].
  bind_inv H. rewrite Hbind3. cbn.
  bind_inv H. rewrite Hbind4. cbn.
  injection H as <- <-.
  eexists. split; [reflexivity |]. cbn. repeat split; reflexivity.
Qed.

Lemma same_training_trans (s t u : state) :
  same_training s t -> same_training t u -> same_training s u.
Proof. unfold same_training. intuition congruence. Qed.

Lemma early_stopping_continue (epoch : nat) (s1 s' : state) (v : Q) :
  early_stopping model patience epoch s1 v = Ok (s', Continue) ->
  same_training s' s1 /\
  (best_model_state s' = best_model_state s1 \/
   best_model_state s' = Some (state_dict model)).
Proof.
  unfold early_stopping, same_training.
  destruct (lt_xfloat v (best_val_loss s1)).
  - intros H. injection H as <-. cbn. auto 10.
  - destruct (patience <=? early_counter s1 + 1)%Z.
    + destruct (load_state_dict model (best_model_state s1) (st_heap s1));
        cbn; discriminate.
    + intros H. injection H as <-. cbn. auto 10.
Qed.

Lemma early_stopping_break (epoch : nat) (s1 s' : state) (v : Q) :
  early_stopping model patience epoch s1 v = Ok (s', Break) ->
  load_state_dict model (best_model_state s1) (st_heap s1) = Ok (st_heap s') /\
  (patience <= early_counter s1 + 1)%Z /\
  train_losses s' = train_losses s1 /\ val_losses s' = val_losses s1 /\
  st_out s' = st_out s1 ++ [EarlyStopping (S epoch)].
Proof.
  unfold early_stopping.
  destruct (lt_xfloat v (best_val_loss s1)); [discriminate |].
  destruct (patience <=? early_counter s1 + 1)%Z eqn:Hp; [| discriminate].
  destruct (load_state_dict model (best_model_state s1) (st_heap s1)) as [h |];
    cbn; [| discriminate].
  intros H. injection H as <-. cbn. apply Z.leb_le in Hp. auto.
Qed.

(** Loading the state dictionary of a module into that module changes
    nothing: source and destination are the same tensors. *)
Lemma load_own_state_dict (h h' : gmap loc P) :
  load_state_dict model (Some (state_dict model)) h = Ok h' -> h' = h.
Proof.
  unfold load_state_dict, state_dict.
  destruct (h !! model) as [p |] eqn:Hp; [| discriminate].
  intros H. injection H as <-. apply insert_id, Hp.
Qed.

Lemma run_epochs_continue (epochs : list nat) :
  forall s t s',
    same_training s t ->
    run_epochs' epochs s = Ok (s', Continue) ->
    exists t',
      plain_epochs' epochs t = Ok t' /\
      same_training s' t' /\
      length (train_losses s') = (length (train_losses s) + length epochs)%nat.
Proof.
  induction epochs as [| epoch rest IH]; intros s t s' Hst Hrun.
  - cbn in Hrun. injection Hrun as <-. exists t. cbn. auto with lia.
  - cbn [run_epochs plain_epochs] in *.
    bind_inv Hrun. destruct a as [s2 c].
    destruct c; [| discriminate].
    unfold epoch_body in Hbind. bind_inv Hbind. destruct a as [s1 v].
    destruct (epoch_metrics_train_loss _ _ _ _ Hbind0)
      as (_ & _ & _ & _ & tl & _ & _ & _ & Htl).
    destruct (epoch_metrics_same_training _ _ _ _ _ Hst Hbind0)
      as (t1 & Ht1 & Hs1t1 & _).
    rewrite Ht1. cbn.
    destruct (early_stopping_continue _ _ _ _ Hbind) as [Hs2 _].
    destruct (IH s2 t1 s' (same_training_trans _ _ _ Hs2 Hs1t1) Hrun)
      as (t' & Hplain & Hsame & Hlen).
    exists t'. split; [exact Hplain |]. split; [exact Hsame |].
    rewrite Hlen. destruct Hs2 as (_ & _ & _ & -> & _). rewrite Htl.
    rewrite length_app. cbn. lia.
Qed.

Lemma plain_epochs_app (epochs later : list nat) :
  forall s : state,
    plain_epochs' (epochs ++ later) s
    = s1 ← plain_epochs' epochs s; plain_epochs' later s1.
Proof.
  induction epochs as [| epoch rest IH]; intros s; cbn.
  - reflexivity.
  - destruct (epoch_metrics' epoch s) as [[s1 v] |]; cbn; [apply IH | reflexivity].
Qed.

(** C4. When the loop is never left by the early-stopping [break], it
    runs all [num_epochs] epochs and the snapshot is not loaded back:
    the parameters at return (with the optimizer state and the recorded
    losses) are those the same epochs produce without the early-stopping
    block, that is, the ones the batch loop of the last epoch left. *)
Theorem natural_completion_keeps_last_epoch
    (h : gmap loc P) (o : O) (s : state) :
  train_loop forward criterion optimizer_step scheduler lr_of
             r2_score mean_squared_error model train_loader val_loader
             num_epochs patience h o = Ok (s, Continue) ->
  train_regression_model forward criterion optimizer_step scheduler lr_of
             r2_score mean_squared_error model train_loader val_loader
             num_epochs patience h o
    = Ok (st_heap s, (model, train_losses s, val_losses s)) /\
  length (train_losses s) = num_epochs /\
  (exists t,
     plain_epochs' (seq 0 num_epochs) (initial_state h o) = Ok t /\
     same_training s t) /\
  (forall last, num_epochs = S last ->
     exists before h' o' outputs train_loss,
       plain_epochs' (seq 0 last) (initial_state h o) = Ok before /\
       train_batches forward criterion optimizer_step model
                     (batches train_loader last)
                     (st_heap before) (st_opt before) (st_outputs before) 0
         = Ok (h', o', outputs, train_loss) /\
       st_heap s = h').
Proof.
  intros Hrun. split; [unfold train_regression_model; rewrite Hrun; reflexivity |].
  unfold train_loop in Hrun.
  assert (Hrefl : same_training (initial_state h o) (initial_state h o))
    by (unfold same_training; auto 10).
  destruct (run_epochs_continue _ _ _ _ Hrefl Hrun) as (t & Hplain & Hsame & Hlen).
  split; [rewrite Hlen; cbn; apply length_seq |].
  split; [eauto |].
  intros last Hlast. rewrite Hlast in Hplain at 2.
  rewrite seq_S, plain_epochs_app in Hplain. cbn [Nat.add] in Hplain.
  bind_inv Hplain. rename a into before. cbn [plain_epochs] in Hplain.
  bind_inv Hplain. destruct a as [t1 v]. injection Hplain as ->.
  destruct (epoch_metrics_train_loss _ _ _ _ Hbind0)
    as (h' & o' & outputs & acc & tl & Htrain & _ & Hheap & _).
  exists before, h', o', outputs, acc.
  split; [exact Hbind |]. split; [exact Htrain |].
  destruct Hsame as (-> & _). exact Hheap.
Qed.

(** When the loop is left by [break], the model keeps the parameters of
    the epoch it stopped in: the state dictionary it loads is made of
    its own, meanwhile updated, tensors. *)
Lemma run_epochs_break (epochs : list nat) :
  forall s t s',
    same_training s t ->
    best_model_state s = None \/ best_model_state s = Some (state_dict model) ->
    run_epochs' epochs s = Ok (s', Break) ->
    exists k t',
      (k < length epochs)%nat /\
      plain_epochs' (take (S k) epochs) t = Ok t' /\
      st_heap s' = st_heap t' /\
      train_losses s' = train_losses t' /\
      val_losses s' = val_losses t'.
Proof.
  induction epochs as [| epoch rest IH]; intros s t s' Hst Hinv Hrun.
  - discriminate.
  - cbn [run_epochs] in Hrun.
    bind_inv Hrun. destruct a as [s2 c].
    unfold epoch_body in Hbind. bind_inv Hbind. destruct a as [s1 v].
    destruct (epoch_metrics_same_training _ _ _ _ _ Hst Hbind0)
      as (t1 & Ht1 & Hs1t1 & _ & _ & _ & _ & _ & Hbms).
    destruct c.
    + destruct (early_stopping_continue _ _ _ _ Hbind) as [Hs2 Hbms2].
      destruct (IH s2 t1 s' (same_training_trans _ _ _ Hs2 Hs1t1)) as
        (k & t' & Hk & Hplain & Hrest); [| exact Hrun |].
      { rewrite Hbms in Hbms2. destruct Hbms2 as [-> | ->]; auto. }
      exists (S k), t'. split; [cbn; lia |].
      split; [| exact Hrest].
      change (take (S (S k)) (epoch :: rest)) with (epoch :: take (S k) rest).
      cbn [plain_epochs]. rewrite Ht1. cbn. exact Hplain.
    + injection Hrun as <-.
      destruct (early_stopping_break _ _ _ _ Hbind) as (Hload & _ & Htl & Hvl & _).
      exists 0%nat, t1. split; [cbn; lia |].
      split; [cbn; rewrite Ht1; reflexivity |].
      rewrite Hbms in Hload.
      destruct Hinv as [Hnone | Hsome].
      * rewrite Hnone in Hload. discriminate.
      * rewrite Hsome in Hload. apply load_own_state_dict in Hload.
        unfold same_training in Hs1t1. intuition congruence.
Qed.

(** X2. When the loop is left by [break], loading the saved state
    dictionary changes nothing: the parameters and the losses at return
    are those of the epochs run, as if the early-stopping block were not
    there. *)
Lemma early_stop_keeps_last_epoch_params
    (h : gmap loc P) (o : O) (s : state) :
  train_loop forward criterion optimizer_step scheduler lr_of
             r2_score mean_squared_error model train_loader val_loader
             num_epochs patience h o = Ok (s, Break) ->
  exists k t,
    (k < num_epochs)%nat /\
    plain_epochs' (seq 0 (S k)) (initial_state h o) = Ok t /\
    st_heap s = st_heap t /\
    train_losses s = train_losses t /\
    val_losses s = val_losses t.
Proof.
  intros Hrun. unfold train_loop in Hrun.
  assert (Hrefl : same_training (initial_state h o) (initial_state h o))
    by (unfold same_training; auto 10).
  destruct (run_epochs_break _ _ _ _ Hrefl (or_introl eq_refl) Hrun)
    as (k & t & Hk & Hplain & Hrest).
  rewrite length_seq in Hk.
  exists k, t. split; [exact Hk |]. split; [| exact Hrest].
  rewrite take_seq in Hplain.
  replace (S k `min` num_epochs)%nat with (S k) in Hplain by lia.
  exact Hplain.
Qed.

Lemma epoch_metrics_val_loss (epoch : nat) (s s1 : state) (v : Q) :
  epoch_metrics' epoch s = Ok (s1, v) ->
  val_losses s1 = val_losses s ++ [v] /\
  best_val_loss s1 = best_val_loss s /\
  early_counter s1 = early_counter s.
Proof.
  unfold epoch_metrics. intros H.
  bind_inv H. destruct a as [[[h o] outputs] acc].
  bind_inv H. bind_inv H. bind_inv H. destruct a1 as [[vl r2s] mses].
  bind_inv H. bind_inv H. injection H as <- <-. cbn. auto.
Qed.

Lemma lt_xfloat_false (v best : Q) : lt_xfloat v (Fin best) = false -> best <= v.
Proof.
  unfold lt_xfloat. destruct (v ?= best) eqn:Hcmp; intros H.
  - apply Qeq_alt in Hcmp. rewrite Hcmp. apply Qle_refl.
  - discriminate.
  - apply Qgt_alt in Hcmp. apply Qlt_le_weak, Hcmp.
Qed.

Lemma lt_xfloat_true (v best : Q) : lt_xfloat v (Fin best) = true -> v < best.
Proof.
  unfold lt_xfloat. destruct (v ?= best) eqn:Hcmp; intros H; try discriminate.
  apply Qlt_alt, Hcmp.
Qed.

(** One epoch keeps the invariant or stops with the counter at
    [patience]. *)
Lemma epoch_body_patience (epoch : nat) (s s' : state) (c : control) :
  (1 <= patience)%Z ->
  patience_inv patience s ->
  epoch_body forward criterion optimizer_step scheduler lr_of r2_score
             mean_squared_error model train_loader val_loader num_epochs
             patience epoch s = Ok (s', c) ->
  match c with
  | Continue => patience_inv patience s'
  | Break => best_then_worse patience s'
  end.
Proof.
  intros Hpat [Hcount Hshape] Hrun.
  unfold epoch_body in Hrun. bind_inv Hrun. destruct a as [s1 v].
  destruct (epoch_metrics_val_loss _ _ _ _ Hbind) as (Hvl & Hbest & Hcnt).
  unfold early_stopping in Hrun. rewrite Hbest, Hcnt in Hrun.
  destruct (lt_xfloat v (best_val_loss s)) eqn:Hlt.
  - (* improvement: this epoch is the best one *)
    injection Hrun as <- <-. split; cbn; [lia |]. right.
    exists (val_losses s), v, []. cbn. rewrite Hvl.
    repeat split; try constructor.
    destruct Hshape as [(Hnil & _) | (pre & best & post & Hsplit & Hfin & _ & Hpre & Hpost)].
    + rewrite Hnil. constructor.
    + rewrite Hfin in Hlt. apply lt_xfloat_true in Hlt.
      rewrite Hsplit. apply Forall_app. split; [| constructor].
      * eapply Forall_impl; [exact Hpre |]. cbn. intros x Hx.
        apply Qlt_le_weak. eapply Qlt_le_trans; eassumption.
      * apply Qlt_le_weak, Hlt.
      * eapply Forall_impl; [exact Hpost |]. cbn. intros x Hx.
        apply Qlt_le_weak. eapply Qlt_le_trans; [exact Hlt |].
        apply lt_xfloat_false, Hx.
  - (* no improvement *)
    destruct Hshape as [(_ & Hinf & _) | (pre & best & post & Hsplit & Hfin & Hlen & Hpre & Hpost)].
    { rewrite Hinf in Hlt. discriminate. }
    assert (Hgrown : exists post',
               val_losses s1 = pre ++ best :: post' /\
               Z.of_nat (length post') = (early_counter s + 1)%Z /\
               no_improvement best post').
    { exists (post ++ [v]). rewrite Hvl, Hsplit, <- app_assoc. cbn.
      split; [reflexivity |]. split; [rewrite length_app; cbn; lia |].
      apply Forall_app. split; [exact Hpost |].
      constructor; [| constructor]. rewrite <- Hfin. exact Hlt. }
    destruct Hgrown as (post' & Hsplit' & Hlen' & Hpost').
    destruct (patience <=? early_counter s + 1)%Z eqn:Hp.
    + bind_inv Hrun. injection Hrun as <- <-.
      apply Z.leb_le in Hp.
      exists pre, best, post'. cbn.
      repeat split; try assumption. lia.
    + injection Hrun as <- <-. apply Z.leb_gt in Hp.
      split; cbn; [lia |]. right.
      exists pre, best, post'. cbn.
      repeat split; assumption.
Qed.

Lemma run_epochs_patience (epochs : list nat) :
  forall s s' : state,
    (1 <= patience)%Z ->
    patience_inv patience s ->
    run_epochs' epochs s = Ok (s', Break) ->
    best_then_worse patience s'.
Proof.
  induction epochs as [| epoch rest IH]; intros s s' Hpat Hinv Hrun.
  - discriminate.
  - cbn [run_epochs] in Hrun. bind_inv Hrun. destruct a as [s2 c].
    pose proof (epoch_body_patience _ _ _ _ Hpat Hinv Hbind) as Hstep.
    destruct c.
    + eapply IH; eassumption.
    + injection Hrun as <-. exact Hstep.
Qed.

(** X1. With a patience of at least 1, a loop left by [break] stops
    exactly [patience] epochs after the epoch of its best validation
    loss, none of which improved on it. *)
Lemma early_stop_at_best_plus_patience (h : gmap loc P) (o : O) (s : state) :
  (1 <= patience)%Z ->
  train_loop forward criterion optimizer_step scheduler lr_of
             r2_score mean_squared_error model train_loader val_loader
             num_epochs patience h o = Ok (s, Break) ->
  best_then_worse patience s.
Proof.
  intros Hpat Hrun. unfold train_loop in Hrun.
  eapply run_epochs_patience; [exact Hpat | | exact Hrun].
  split; cbn; [lia | left; auto].
Qed.

Lemma py_min_snoc (l : list Q) (v m : Q) :
  py_min l = Ok m ->
  py_min (l ++ [v]) = Ok (if lt_xfloat v (Fin m) then v else m).
Proof.
  destruct l as [| x rest]; [discriminate |].
  cbn. intros H. injection H as <-.
  rewrite fold_left_app. cbn.
  destruct (v ?= fold_left _ rest x); reflexivity.
Qed.

Lemma early_stopping_lists (epoch : nat) (s1 s' : state) (v : Q) (c : control) :
  early_stopping model patience epoch s1 v = Ok (s', c) ->
  train_losses s' = train_losses s1 /\ val_losses s' = val_losses s1 /\
  (0 <= early_counter s1 -> 0 <= early_counter s')%Z /\
  best_val_loss s' = (if lt_xfloat v (best_val_loss s1) then Fin v else best_val_loss s1).
Proof.
  unfold early_stopping.
  destruct (lt_xfloat v (best_val_loss s1)).
  - intros H. injection H as <- <-. cbn. repeat split; auto with lia.
  - destruct (patience <=? early_counter s1 + 1)%Z.
    + destruct (load_state_dict model (best_model_state s1) (st_heap s1)); cbn;
        [| discriminate].
      intros H. injection H as <- <-. cbn. repeat split; auto with lia.
    + intros H. injection H as <- <-. cbn. repeat split; auto with lia.
Qed.

Lemma epoch_body_tracks_minimum (epoch : nat) (s s' : state) (c : control) :
  epoch_body forward criterion optimizer_step scheduler lr_of r2_score
             mean_squared_error model train_loader val_loader num_epochs
             patience epoch s = Ok (s', c) ->
  tracks_minimum s -> tracks_minimum s'.
Proof.
  intros Hrun Hinv. unfold epoch_body in Hrun. bind_inv Hrun. destruct a as [s1 v].
  destruct (epoch_metrics_val_loss _ _ _ _ Hbind) as (Hvl & Hbest & _).
  destruct (early_stopping_lists _ _ _ _ _ Hrun) as (_ & Hvl' & _ & Hbest').
  right. rewrite Hvl', Hvl, Hbest', Hbest.
  destruct Hinv as [[-> ->] | (m & Hmin & ->)].
  - exists v. split; reflexivity.
  - exists (if lt_xfloat v (Fin m) then v else m).
    split; [apply py_min_snoc, Hmin |].
    destruct (lt_xfloat v (Fin m)); reflexivity.
Qed.

Lemma run_epochs_tracks_minimum (epochs : list nat) :
  forall (s0 s : state) (c : control),
    tracks_minimum s0 -> run_epochs' epochs s0 = Ok (s, c) -> tracks_minimum s.
Proof.
  induction epochs as [| epoch rest IH]; intros s0 s c Hinv Hrun.
  - cbn in Hrun. injection Hrun as <- <-. exact Hinv.
  - cbn [run_epochs] in Hrun. bind_inv Hrun. destruct a as [s2 c2].
    pose proof (epoch_body_tracks_minimum _ _ _ _ Hbind Hinv) as Hinv2.
    destruct c2; [eapply IH; eassumption |].
    injection Hrun as <- <-. exact Hinv2.
Qed.

(** X5. At every return of the loop, early or not, [best_val_loss] is
    [min(val_losses)] (and still infinite when no epoch ran). *)
Theorem best_val_loss_is_min (h : gmap loc P) (o : O) (s : state) (c : control) :
  train_loop forward criterion optimizer_step scheduler lr_of
             r2_score mean_squared_error model train_loader val_loader
             num_epochs patience h o = Ok (s, c) ->
  tracks_minimum s.
Proof.
  unfold train_loop. apply run_epochs_tracks_minimum. left. split; reflexivity.
Qed.

(** X6. The two loss lists the function returns have one entry per epoch
    run: they have the same length, at most [num_epochs], exactly
    [num_epochs] when the loop was not stopped early and at least one when
    it was. *)
Theorem loss_lists_have_one_entry_per_epoch
    (h : gmap loc P) (o : O) (s : state) (c : control) :
  train_loop forward criterion optimizer_step scheduler lr_of
             r2_score mean_squared_error model train_loader val_loader
             num_epochs patience h o = Ok (s, c) ->
  length (train_losses s) = length (val_losses s) /\
  (length (train_losses s) <= num_epochs)%nat /\
  (c = Continue -> length (train_losses s) = num_epochs) /\
  (c = Break -> (1 <= length (train_losses s))%nat).
Proof.
  unfold train_loop.
  assert (Hgen : forall epochs (s0 : state),
             run_epochs' epochs s0 = Ok (s, c) ->
             exists k,
               length (train_losses s) = (length (train_losses s0) + k)%nat /\
               length (val_losses s) = (length (val_losses s0) + k)%nat /\
               (k <= length epochs)%nat /\
               (c = Continue -> k = length epochs) /\
               (c = Break -> (1 <= k)%nat)).
  { induction epochs as [| epoch rest IH]; intros s0 Hrun.
    - cbn in Hrun. injection Hrun as <- <-. exists 0%nat.
      repeat split; auto with lia. discriminate.
    - cbn [run_epochs] in Hrun. bind_inv Hrun. destruct a as [s2 c2].
      unfold epoch_body in Hbind. bind_inv Hbind. destruct a as [s1 v].
      destruct (epoch_metrics_train_loss _ _ _ _ Hbind0)
        as (_ & _ & _ & _ & tl & _ & _ & _ & Htl).
      destruct (epoch_metrics_val_loss _ _ _ _ Hbind0) as (Hvl & _).
      destruct (early_stopping_lists _ _ _ _ _ Hbind) as (Htl2 & Hvl2 & _).
      assert (Hone : length (train_losses s2) = S (length (train_losses s0)) /\
                     length (val_losses s2) = S (length (val_losses s0))).
      { rewrite Htl2, Hvl2, Htl, Hvl, !length_app. cbn. lia. }
      destruct c2.
      + destruct (IH s2 Hrun) as (k & Hk1 & Hk2 & Hk3 & Hk4 & Hk5).
        exists (S k). cbn [length]. repeat split; try lia.
        * intros Hc. rewrite (Hk4 Hc). reflexivity.
      + injection Hrun as <- <-. exists 1%nat. cbn [length].
        repeat split; try lia. discriminate. }
  intros Hrun. destruct (Hgen _ _ Hrun) as (k & Hk1 & Hk2 & Hk3 & Hk4 & Hk5).
  cbn in Hk1, Hk2. rewrite length_seq in Hk3, Hk4. repeat split; try lia.
  - intros Hc. rewrite Hk1. apply Hk4, Hc.
  - intros Hc. specialize (Hk5 Hc). lia.
Qed.

End TrainingFacts.

Lemma recorded_train_loss_is_weighted_mean_witness :
  exists s' v,
    Toy.first_epoch = Ok (s', v) /\
    exists ls train_loss,
      batch_losses Toy.forward Toy.mse_criterion Toy.sgd_mse_step Toy.model
                   (batches Toy.identity_loader 0) Toy.heap0 (1 # 10) = Ok ls /\
      train_losses s' = [] ++ [train_loss] /\
      train_loss == weighted_loss_sum ls / inject_Z (Z.of_nat 2) /\
      (forall samples : list (list Q),
         ls = map (fun b => (Qsum b / inject_Z (Z.of_nat (length b)), length b)) samples ->
         Forall (fun b => b <> []) samples ->
         2%nat = length (concat samples) ->
         train_loss == Qsum (concat samples) / inject_Z (Z.of_nat (length (concat samples)))).
Proof.
  assert (H : exists sv, Toy.first_epoch = Ok sv) by (vm_compute; eexists; reflexivity).
  destruct H as [[s' v] H]. exists s', v. split; [exact H |].
  apply (recorded_train_loss_is_weighted_mean
           Toy.forward Toy.mse_criterion Toy.sgd_mse_step None Toy.lr_of
           sk_r2_score sk_mean_squared_error Toy.model
           Toy.identity_loader Toy.identity_loader 2 0
           (initial_state Toy.heap0 (1 # 10)) s' v H).
Defined.

Lemma natural_completion_keeps_last_epoch_witness :
  exists s,
    Toy.converging_run = Ok (s, Continue) /\
    train_regression_model Toy.forward Toy.mse_criterion Toy.sgd_mse_step None Toy.lr_of
        sk_r2_score sk_mean_squared_error Toy.model
        Toy.identity_loader Toy.identity_loader 2 5 Toy.heap0 (1 # 10)
      = Ok (st_heap s, (Toy.model, train_losses s, val_losses s)) /\
    length (train_losses s) = 2%nat /\
    (exists t,
       plain_epochs Toy.forward Toy.mse_criterion Toy.sgd_mse_step None Toy.lr_of
         sk_r2_score sk_mean_squared_error Toy.model
         Toy.identity_loader Toy.identity_loader 2 (seq 0 2)
         (initial_state Toy.heap0 (1 # 10)) = Ok t /\
       same_training s t) /\
    (forall last, 2%nat = S last ->
       exists before h' o' outputs train_loss,
         plain_epochs Toy.forward Toy.mse_criterion Toy.sgd_mse_step None Toy.lr_of
           sk_r2_score sk_mean_squared_error Toy.model
           Toy.identity_loader Toy.identity_loader 2 (seq 0 last)
           (initial_state Toy.heap0 (1 # 10)) = Ok before /\
         train_batches Toy.forward Toy.mse_criterion Toy.sgd_mse_step Toy.model
                       (batches Toy.identity_loader last)
                       (st_heap before) (st_opt before) (st_outputs before) 0
           = Ok (h', o', outputs, train_loss) /\
         st_heap s = h').
Proof.
  assert (H : exists s, Toy.converging_run = Ok (s, Continue))
    by (vm_compute; eexists; reflexivity).
  destruct H as [s H]. exists s. split; [exact H |].
  apply (natural_completion_keeps_last_epoch
           Toy.forward Toy.mse_criterion Toy.sgd_mse_step None Toy.lr_of
           sk_r2_score sk_mean_squared_error Toy.model
           Toy.identity_loader Toy.identity_loader 2 5 Toy.heap0 (1 # 10) s H).
Defined.

(** C2, on the diverging run (patience 2, ten epochs).  The validation
    loss is best in epoch 1 and worse in epochs 2 and 3, and the loop
    stops in epoch 3 = 1 + 2.  The weight the optimizer had produced at
    the end of epoch 1 is 5/2; the weight of the model at return is 35/8,
    the weight of epoch 3: the saved state dictionary shares the tensors
    of the model, so loading it restores nothing. *)
Theorem early_stop_returns_last_epoch_parameters :
  exists s t,
    Toy.diverging_run = Ok (s, Break) /\
    map Qred (val_losses s) = [45 # 8; 405 # 32; 3645 # 128] /\
    length (train_losses s) = 3%nat /\
    st_out s !! 1%nat = Some (EarlyStopping 3) /\
    Toy.diverging_plain 1 = Ok t /\
    st_heap t !! Toy.model = Some (5 # 2) /\
    st_heap s !! Toy.model = Some (35 # 8).
Proof.
  eexists. eexists.
  split; [vm_compute; reflexivity |].
  split; [vm_compute; reflexivity |].
  split; [vm_compute; reflexivity |].
  split; [vm_compute; reflexivity |].
  split; [vm_compute; reflexivity |].
  split; vm_compute; reflexivity.
Qed.

(** C3, on the converging run (two epochs, both reported).  In epoch 2
    the model has weight 3/4 and the mean squared error of its one output
    column on the validation data is 5/32; the reported mean is 25/64,
    the mean of the values of epochs 1 and 2, and the value printed for
    the column is 5/8, the value of epoch 1: the list of squared errors
    is never emptied.  The mean R² is the one of epoch 2 alone. *)
Theorem reported_mean_mse_mixes_epochs :
  exists s r1 r2 vl r2s mses,
    Toy.converging_run = Ok (s, Continue) /\
    st_out s = [Progress r1; Progress r2] /\
    rep_epoch r2 = 2%nat /\
    st_heap s !! Toy.model = Some (3 # 4) /\
    Toy.validation_alone (3 # 4) = Ok (vl, r2s, mses) /\
    Qred <$> mean_opt mses = Some (5 # 32) /\
    Qred <$> rep_mean_mse r2 = Some (25 # 64) /\
    map Qred (rep_mse r2) = [5 # 8] /\
    Qred <$> rep_mean_r2 r2 = Qred <$> mean_opt r2s.
Proof.
  do 6 eexists.
  split; [vm_compute; reflexivity |].
  split; [reflexivity |].
  split; [reflexivity |].
  split; [vm_compute; reflexivity |].
  split; [vm_compute; reflexivity |].
  split; [vm_compute; reflexivity |].
  split; [vm_compute; reflexivity |].
  split; vm_compute; reflexivity.
Qed.

(** C5, on a run whose validation targets have two columns while the
    model has one output.  The validation batch is passed to the
    criterion unchecked, the criterion broadcasts, and the run returns
    normally with a validation loss; the same batch in the training
    loader is stopped by the assertion. *)
Theorem validation_shape_mismatch_is_not_checked :
  exists h w tl vl outputsv lossv,
    Toy.mismatched_val_run = Ok (h, (Toy.model, tl, [vl])) /\
    h !! Toy.model = Some w /\
    Toy.forward false w Toy.xs = Ok outputsv /\
    shape outputsv = [2%nat; 1%nat] /\
    shape Toy.wide_targets = [2%nat; 2%nat] /\
    Toy.huber_criterion outputsv Toy.wide_targets = Ok lossv /\
    vl == lossv /\
    Toy.mismatched_train_run = Raise AssertionError.
Proof.
  do 6 eexists.
  split; [vm_compute; reflexivity |].
  split; [vm_compute; reflexivity |].
  split; [vm_compute; reflexivity |].
  split; [reflexivity |].
  split; [reflexivity |].
  split; [vm_compute; reflexivity |].
  split; [vm_compute; reflexivity |].
  vm_compute; reflexivity.
Qed.

(** The list of squared errors only grows: an epoch appends the values
    of its validation pass to those of all epochs before. *)
Section MetricLists.

Context {P : Type}.
Variable forward : bool -> P -> tensor -> result tensor.
Variable criterion : tensor -> tensor -> result Q.
Variable r2_score mean_squared_error : list Q -> list Q -> result Q.

Lemma metric_columns_appends (outputsv targets : tensor) (cols : list nat) :
  forall r2_values mse_values,
    metric_columns r2_score mean_squared_error outputsv targets cols r2_values mse_values
    = '(r2s, mses) ← metric_columns r2_score mean_squared_error outputsv targets cols [] [];
      Ok (r2_values ++ r2s, mse_values ++ mses).
Proof.
  induction cols as [| col rest IH]; intros r2_values mse_values.
  - cbn. rewrite !app_nil_r. reflexivity.
  - cbn [metric_columns].
    destruct (column outputsv col) as [pred_col |]; cbn; [| reflexivity].
    destruct (column targets col) as [target_col |]; cbn; [| reflexivity].
    destruct (r2_score target_col pred_col) as [r2 |]; cbn; [| reflexivity].
    destruct (mean_squared_error target_col pred_col) as [mse |]; cbn; [| reflexivity].
    rewrite (IH (r2_values ++ [r2])), (IH [r2]).
    destruct (metric_columns r2_score mean_squared_error outputsv targets rest [] [])
      as [[r2s mses] |]; cbn; [| reflexivity].
    rewrite <- !app_assoc. reflexivity.
Qed.

(** X3. A validation pass appends its R² and squared-error values to
    the lists it is given and keeps what they held: it does the same as a
    pass on empty lists, followed by the concatenation. *)
Lemma val_batches_appends (p : P) (bs : list (tensor * tensor)) :
  forall val_loss r2_values mse_values,
    val_batches forward criterion r2_score mean_squared_error p bs
                val_loss r2_values mse_values
    = '(v, r2s, mses) ← val_batches forward criterion r2_score mean_squared_error
                                    p bs val_loss [] [];
      Ok (v, r2_values ++ r2s, mse_values ++ mses).
Proof.
  induction bs as [| [inputs targets] rest IH]; intros val_loss r2_values mse_values.
  - cbn. rewrite !app_nil_r. reflexivity.
  - cbn [val_batches].
    destruct (forward false p inputs) as [outputsv |]; cbn; [| reflexivity].
    destruct (criterion outputsv targets) as [lossv |]; cbn; [| reflexivity].
    destruct (dim inputs 0) as [n |]; cbn; [| reflexivity].
    destruct (dim outputsv 1) as [ncol |]; cbn; [| reflexivity].
    rewrite (metric_columns_appends outputsv targets (seq 0 ncol) r2_values mse_values).
    destruct (metric_columns r2_score mean_squared_error outputsv targets (seq 0 ncol) [] [])
      as [[r2s mses] |]; cbn; [| reflexivity].
    rewrite (IH _ (r2_values ++ r2s)), (IH _ r2s).
    destruct (val_batches forward criterion r2_score mean_squared_error p rest
                          (val_loss + lossv * inject_Z (Z.of_nat n)) [] [])
      as [[[v r2s'] mses'] |]; cbn; [| reflexivity].
    rewrite <- !app_assoc. reflexivity.
Qed.

End MetricLists.

(** ** The grid-search driver *)

Section GridSearchFacts.

Context {M S : Type}.
Variable run : combo -> S -> result (M * list Q * S).

Lemma search_app (cs ds : list combo) :
  forall g : gstate (M := M) (S := S),
    search run (cs ++ ds) g = g' ← search run cs g; search run ds g'.
Proof.
  induction cs as [| c cs IH]; intros g; cbn.
  - reflexivity.
  - destruct (search_step run c g) as [g1 |]; cbn; [apply IH | reflexivity].
Qed.

Lemma search_step_trained (c : combo) (g g' : gstate (M := M) (S := S)) :
  search_step run c g = Ok g' ->
  exists m val_losses rng,
    run c (g_rng g) = Ok (m, val_losses, rng) /\ g_trained_model g' = Some m.
Proof.
  unfold search_step. intros H.
  bind_inv H. destruct a as [[m val_losses] rng].
  bind_inv H. exists m, val_losses, rng. split; [exact Hbind |].
  destruct (lt_xfloat a (g_best_val_loss g)); injection H as <-; reflexivity.
Qed.

(** X4. Whatever the validation losses are, the model written to the
    snapshot file is the one trained for the last combination. *)
Lemma grid_search_saves_last_trained
    (cs : list combo) (c : combo) (rng : S) (g : gstate) (m : M) :
  grid_search run (cs ++ [c]) rng = Ok (g, m) ->
  exists rng1 val_losses rng2, run c rng1 = Ok (m, val_losses, rng2).
Proof.
  unfold grid_search. intros H.
  bind_inv H. bind_inv H. injection H as <- <-.
  rewrite search_app in Hbind. bind_inv Hbind. cbn in Hbind.
  bind_inv Hbind. injection Hbind as <-.
  destruct (search_step_trained _ _ _ Hbind2) as (m' & vl & rng2 & Hrun & Htrained).
  unfold saved_model in Hbind0. rewrite Htrained in Hbind0.
  injection Hbind0 as <-. eauto.
Qed.

End GridSearchFacts.

(** C1, on a sweep over the grid of the script in which the first
    combination reaches the smallest validation loss.  The script tracks
    that combination and its model as the best ones, and writes the
    parameters of the model of the last combination to the snapshot
    file. *)
Theorem grid_search_saves_last_model :
  exists g,
    grid_search first_is_best grid tt = Ok (g, last_combo) /\
    g_best_val_loss g = Fin 1 /\
    g_best_params g = Some first_combo /\
    g_best_model g = Some first_combo /\
    first_combo <> last_combo.
Proof.
  eexists.
  split; [vm_compute; reflexivity |].
  split; [reflexivity |].
  split; [reflexivity |].
  split; [reflexivity |].
  discriminate.
Qed.

(** ** More on the training loop *)

Section Patience.

Context {P O : Type}.
Variable forward : bool -> P -> tensor -> result tensor.
Variable criterion : tensor -> tensor -> result Q.
Variable optimizer_step : O -> P -> tensor -> tensor -> O * P.
Variable scheduler : option (Q -> O -> O).
Variable lr_of : O -> Q.
Variable r2_score mean_squared_error : list Q -> list Q -> result Q.
Variable model : loc.
Variables train_loader val_loader : loader.
Variable num_epochs : nat.

Local Abbreviation state := (tstate (P := P) (O := O)).
Local Abbreviation run_with patience :=
  (run_epochs forward criterion optimizer_step scheduler lr_of
              r2_score mean_squared_error model train_loader val_loader
              num_epochs patience).

Lemma early_stopping_low_patience (patience : Z) (epoch : nat) (s : state) (v : Q) :
  (patience <= 1)%Z -> (0 <= early_counter s)%Z ->
  early_stopping model patience epoch s v = early_stopping model 1 epoch s v.
Proof.
  intros Hp Hc. unfold early_stopping.
  destruct (lt_xfloat v (best_val_loss s)); [reflexivity |].
  replace (patience <=? early_counter s + 1)%Z with true by (symmetry; apply Z.leb_le; lia).
  replace (1 <=? early_counter s + 1)%Z with true by (symmetry; apply Z.leb_le; lia).
  reflexivity.
Qed.

Lemma run_epochs_low_patience (patience : Z) (epochs : list nat) :
  (patience <= 1)%Z ->
  forall s : state,
    (0 <= early_counter s)%Z ->
    run_with patience epochs s = run_with 1%Z epochs s.
Proof.
  intros Hp. induction epochs as [| epoch rest IH]; intros s Hc; [reflexivity |].
  cbn [run_epochs]. unfold epoch_body.
  destruct (epoch_metrics forward criterion optimizer_step scheduler lr_of r2_score
              mean_squared_error model train_loader val_loader num_epochs epoch s)
    as [[s1 v] |] eqn:Hm; cbn; [| reflexivity].
  destruct (epoch_metrics_val_loss _ _ _ _ _ _ _ _ _ _ _ _ _ _ _ Hm) as (_ & _ & Hcnt).
  rewrite early_stopping_low_patience by (rewrite ?Hcnt; assumption).
  destruct (early_stopping model 1 epoch s1 v) as [[s2 c] |] eqn:Hes; cbn; [| reflexivity].
  destruct c; [| reflexivity].
  apply IH.
  destruct (early_stopping_lists _ _ _ _ _ _ _ Hes) as (_ & _ & Hpos & _).
  apply Hpos. rewrite Hcnt. exact Hc.
Qed.

(** X7. A patience of 1 or less, zero and negative values included,
    makes no difference: the loop stops at the first epoch that does not
    improve the validation loss, exactly as with patience 1. *)
Theorem patience_below_one_is_one (patience : Z) (h : gmap loc P) (o : O) :
  (patience <= 1)%Z ->
  train_regression_model forward criterion optimizer_step scheduler lr_of
      r2_score mean_squared_error model train_loader val_loader
      num_epochs patience h o
  = train_regression_model forward criterion optimizer_step scheduler lr_of
      r2_score mean_squared_error model train_loader val_loader
      num_epochs 1 h o.
Proof.
  intros Hp. unfold train_regression_model, train_loop.
  rewrite (run_epochs_low_patience patience (seq 0 num_epochs) Hp); [reflexivity |].
  cbn. lia.
Qed.

End Patience.

Section TrainingCriterion.

Context {P O : Type}.
Variable forward : bool -> P -> tensor -> result tensor.
Variable optimizer_step : O -> P -> tensor -> tensor -> O * P.
Variable model : loc.

(** X8. In the training pass the criterion is only ever applied to an
    output and a target of one shape: two criteria that agree on such
    pairs give the same pass, whatever they do on other pairs. *)
Theorem training_calls_criterion_on_equal_shapes
    (criterion1 criterion2 : tensor -> tensor -> result Q)
    (bs : list (tensor * tensor)) :
  (forall outputs targets,
     shape outputs = shape targets -> criterion1 outputs targets = criterion2 outputs targets) ->
  forall (h : gmap loc P) (o : O) (outputs : option tensor) (train_loss : Q),
    train_batches forward criterion1 optimizer_step model bs h o outputs train_loss
    = train_batches forward criterion2 optimizer_step model bs h o outputs train_loss.
Proof.
  intros Hagree. induction bs as [| [inputs targets] rest IH];
    intros h o outputs train_loss; [reflexivity |].
  cbn [train_batches].
  destruct (deref h model) as [p |]; cbn; [| reflexivity].
  destruct (forward true p inputs) as [outputs' |]; cbn; [| reflexivity].
  destruct (decide (shape outputs' = shape targets)) as [Heq |]; [| reflexivity].
  rewrite (Hagree _ _ Heq).
  destruct (criterion2 outputs' targets) as [loss |]; cbn; [| reflexivity].
  destruct (dim inputs 0) as [n |]; cbn; [| reflexivity].
  destruct (optimizer_step o p inputs targets) as [o' p']. apply IH.
Qed.

End TrainingCriterion.

(** ** [min], [objective] and the choice of the sweep *)

Lemma min_step (m y : Q) :
  let m' := match y ?= m with Lt => y | _ => m end in
  (m' = m \/ m' = y) /\ m' <= m /\ m' <= y.
Proof.
  cbn. destruct (y ?= m) eqn:Hcmp.
  - apply Qeq_alt in Hcmp. repeat split; auto using Qle_refl.
    rewrite Hcmp. apply Qle_refl.
  - apply Qlt_alt in Hcmp. repeat split; auto using Qle_refl, Qlt_le_weak.
  - apply Qgt_alt in Hcmp. repeat split; auto using Qle_refl, Qlt_le_weak.
Qed.

Lemma py_min_least (l : list Q) (m : Q) :
  py_min l = Ok m -> In m l /\ Forall (fun x => m <= x) l.
Proof.
  destruct l as [| x rest]; [discriminate |]. cbn [py_min]. intros H. injection H as <-.
  revert x. induction rest as [| y rest IH]; intros x.
  - cbn. split; [auto |]. constructor; [apply Qle_refl | constructor].
  - cbn [fold_left].
    pose proof (min_step x y) as Hstep. cbn in Hstep.
    remember (match y ?= x with Lt => y | _ => x end) as x' eqn:Hx'.
    destruct Hstep as (Hor & Hx & Hy).
    destruct (IH x') as [Hin Hall].
    inversion Hall as [| ? ? Hhead Htail]. clear Hall.
    split.
    + destruct Hin as [Heq | Hin]; [| right; right; exact Hin].
      destruct Hor as [H1 | H1]; [left | right; left]; congruence.
    + constructor; [eapply Qle_trans; eassumption |].
      constructor; [eapply Qle_trans; eassumption | exact Htail].
Qed.

Section ObjectiveFacts.

Context {P O : Type}.
Variable forward : bool -> P -> tensor -> result tensor.
Variable criterion : tensor -> tensor -> result Q.
Variable optimizer_step : O -> P -> tensor -> tensor -> O * P.
Variable plateau_step : Q -> O -> O.
Variable lr_of : O -> Q.
Variable r2_score mean_squared_error : list Q -> list Q -> result Q.
Variable model : loc.
Variables train_loader val_loader : loader.

(** X9. [objective] returns the smallest validation loss of its run,
    which is the [best_val_loss] the loop ended with; asked for zero
    epochs it raises ValueError, the minimum of an empty list. *)
Theorem objective_returns_best_val_loss (h : gmap loc P) (o : O) :
  objective forward criterion optimizer_step plateau_step lr_of
            r2_score mean_squared_error model train_loader val_loader 0 h o
    = Raise ValueError /\
  forall (num_of_epochs : nat) (m : Q),
    objective forward criterion optimizer_step plateau_step lr_of
              r2_score mean_squared_error model train_loader val_loader
              num_of_epochs h o = Ok m ->
    exists s c,
      train_loop forward criterion optimizer_step (Some plateau_step) lr_of
                 r2_score mean_squared_error model train_loader val_loader
                 num_of_epochs 10 h o = Ok (s, c) /\
      best_val_loss s = Fin m /\
      In m (val_losses s) /\
      Forall (fun v => m <= v) (val_losses s).
Proof.
  split; [reflexivity |].
  intros num_of_epochs m H. unfold objective, train_regression_model in H.
  bind_inv H. bind_inv Hbind. destruct a0 as [s c]. injection Hbind as <-.
  cbn in H. exists s, c. split; [exact Hbind0 |].
  destruct (py_min_least _ _ H) as [Hin Hall].
  split; [| split; assumption].
  unfold train_loop in Hbind0.
  eapply run_epochs_tracks_minimum in Hbind0; [| left; split; reflexivity].
  destruct Hbind0 as [[Hnil _] | (m' & Hmin & Hbest)].
  - rewrite Hnil in H. discriminate.
  - rewrite Hmin in H. injection H as ->. exact Hbest.
Qed.

End ObjectiveFacts.

Section SweepFacts.

Context {M S : Type}.
Variable run : combo -> S -> result (M * list Q * S).

Lemma search_chooses_least (cs : list combo) :
  forall (g g' : gstate (M := M) (S := S)) (seen : list (combo * M * Q)),
    (seen = [] -> g_best_val_loss g = PInf) ->
    chosen g seen ->
    search run cs g = Ok g' ->
    exists rs,
      sweep_results run cs (g_rng g) = Ok rs /\
      chosen g' (seen ++ rs).
Proof.
  induction cs as [| c rest IH]; intros g g' seen Hinf Hinv Hrun.
  - cbn in Hrun. injection Hrun as <-. exists []. rewrite app_nil_r. auto.
  - cbn [search sweep_results] in *. bind_inv Hrun. rename a into g1.
    unfold search_step in Hbind. bind_inv Hbind. destruct a as [[m vl] rng'].
    bind_inv Hbind. rename a into v. rewrite Hbind0. cbn. rewrite Hbind1. cbn.
    assert (Hstep : g_rng g1 = rng' /\ chosen g1 (seen ++ [(c, m, v)])).
    { destruct (lt_xfloat v (g_best_val_loss g)) eqn:Hlt; injection Hbind as <-; cbn;
        (split; [reflexivity |]); right.
      - exists c, m, v. repeat split; try reflexivity.
        + apply in_or_app. right. left. reflexivity.
        + apply Forall_app. split; [| constructor; [apply Qle_refl | constructor]].
          destruct Hinv as [[-> _] | (c0 & m0 & v0 & _ & _ & _ & Hbest & Hall)];
            [constructor |].
          rewrite Hbest in Hlt. apply lt_xfloat_true in Hlt.
          eapply Forall_impl; [exact Hall |]. cbn. intros r Hr.
          eapply Qle_trans; [apply Qlt_le_weak, Hlt | exact Hr].
      - destruct Hinv as [[Hnil _] | (c0 & m0 & v0 & Hin & Hp & Hm & Hbest & Hall)].
        { rewrite (Hinf Hnil) in Hlt. discriminate. }
        exists c0, m0, v0. repeat split; try assumption.
        + apply in_or_app. left. exact Hin.
        + apply Forall_app. split; [exact Hall |].
          constructor; [| constructor]. cbn.
          rewrite Hbest in Hlt. apply lt_xfloat_false, Hlt. }
    destruct Hstep as [Hrng Hinv1].
    destruct (IH g1 g' (seen ++ [(c, m, v)])) as (rs & Hrs & Hinv'); try assumption.
    { intros Hnil. destruct seen; discriminate. }
    rewrite Hrng in Hrs. rewrite Hrs. cbn.
    exists ((c, m, v) :: rs). split; [reflexivity |].
    rewrite <- app_assoc in Hinv'. exact Hinv'.
Qed.

(** X10. At the end of the sweep [best_params], [best_model] and
    [best_val_loss] belong to one and the same run, and no run of the
    sweep reached a smaller validation loss. *)
Theorem grid_search_tracks_best_run
    (cs : list combo) (rng : S) (g : gstate) (saved : M) :
  grid_search run cs rng = Ok (g, saved) ->
  exists rs c m v,
    sweep_results run cs rng = Ok rs /\
    In (c, m, v) rs /\
    g_best_params g = Some c /\
    g_best_model g = Some m /\
    g_best_val_loss g = Fin v /\
    Forall (fun r : combo * M * Q => v <= snd r) rs.
Proof.
  unfold grid_search. intros H. bind_inv H. bind_inv H. injection H as <- <-.
  eapply search_chooses_least with (seen := []) in Hbind;
    [| reflexivity | left; split; reflexivity].
  destruct Hbind as (rs & Hrs & Hinv).
  cbn in Hrs, Hinv.
  destruct Hinv as [[_ Hnone] | (c & m & v & Hin & Hp & Hm & Hv & Hall)].
  - unfold saved_model in Hbind0. rewrite Hnone in Hbind0. discriminate.
  - exists rs, c, m, v. auto 10.
Qed.

End SweepFacts.

(** ** [test_model] *)

Section TestingFacts.

Context {P : Type}.
Variable forward : bool -> P -> tensor -> result tensor.
Variable criterion : tensor -> tensor -> result Q.

(** X11. [test_model] on a loader that yields no batch raises ValueError
    (there is nothing to concatenate), whatever the length of the
    dataset: the division by that length is never reached. *)
Theorem test_model_without_batches (p : P) (test_loader : loader) (it : nat) :
  batches test_loader it = [] ->
  test_model forward criterion p test_loader it = Raise ValueError.
Proof.
  intros Hnil. unfold test_model. rewrite Hnil. reflexivity.
Qed.

Lemma test_batches_collects (p : P) (bs : list (tensor * tensor)) :
  forall test_loss preds targets test_loss' preds' targets',
    test_batches forward criterion p bs test_loss preds targets
      = Ok (test_loss', preds', targets') ->
    exists outs,
      batch_outputs forward p bs = Ok outs /\
      length outs = length bs /\
      preds' = preds ++ outs /\
      targets' = targets ++ map snd bs.
Proof.
  induction bs as [| [inputs tgt] rest IH];
    intros test_loss preds targets test_loss' preds' targets' Hrun.
  - cbn in Hrun. injection Hrun as <- <- <-. exists [].
    rewrite !app_nil_r. auto.
  - cbn [test_batches batch_outputs] in *.
    bind_inv Hrun. rewrite Hbind. cbn. bind_inv Hrun. bind_inv Hrun.
    apply IH in Hrun. destruct Hrun as (outs & Houts & Hlen & -> & ->).
    rewrite Houts. cbn. exists (a :: outs).
    rewrite <- !app_assoc. cbn. auto.
Qed.

Lemma np_concatenate_data (arrays : list tensor) (t : tensor) :
  np_concatenate arrays = Ok t -> data t = concat (map data arrays).
Proof.
  unfold np_concatenate. destruct arrays as [| first rest]; [discriminate |].
  destruct (shape first); [discriminate |].
  destruct (forallb _ _); [| discriminate].
  intros H. injection H as <-. reflexivity.
Qed.

(** X12. What [test_model] returns is aligned with the loader:
    [all_predictions] holds the outputs of the model on the batches, in
    the order of the batches, and [all_targets] the targets of the same
    batches in the same order. *)
Theorem test_model_keeps_batch_order
    (p : P) (test_loader : loader) (it : nat)
    (test_loss : Q) (all_predictions all_targets : tensor) :
  test_model forward criterion p test_loader it
    = Ok (test_loss, all_predictions, all_targets) ->
  exists outs,
    batch_outputs forward p (batches test_loader it) = Ok outs /\
    length outs = length (batches test_loader it) /\
    data all_predictions = concat (map data outs) /\
    data all_targets = concat (map (fun b => data (snd b)) (batches test_loader it)).
Proof.
  unfold test_model. intros H.
  bind_inv H. destruct a as [[tl preds] targets].
  bind_inv H. bind_inv H. bind_inv H. injection H as <- <- <-.
  destruct (test_batches_collects _ _ _ _ _ _ _ _ Hbind) as (outs & Houts & Hlen & -> & ->).
  exists outs. cbn in *. repeat split; try assumption.
  - apply np_concatenate_data, Hbind0.
  - rewrite (np_concatenate_data _ _ Hbind1), map_map. reflexivity.
Qed.

End TestingFacts.

(** ** More on the loss functions *)

Lemma Qsum_from (l : list Q) (a : Q) : fold_left Qplus l a == a + Qsum l.
Proof.
  revert a. induction l as [| x l IH]; intros a; unfold Qsum; cbn.
  - ring.
  - rewrite (IH (a + x)), (IH (0 + x)). ring.
Qed.

Lemma Qsum_cons (x : Q) (l : list Q) : Qsum (x :: l) == x + Qsum l.
Proof. unfold Qsum at 1. cbn. rewrite Qsum_from. ring. Qed.

Lemma Qsum_bound (A : Type) (f g : A -> Q) (l : list A) :
  (forall x, f x <= g x) -> Qsum (map f l) <= Qsum (map g l).
Proof.
  intros Hfg. induction l as [| x l IH]; cbn [map].
  - apply Qle_refl.
  - rewrite !Qsum_cons. apply Qplus_le_compat; [apply Hfg | exact IH].
Qed.

Lemma Qsum_zero (A : Type) (f : A -> Q) (l : list A) :
  (forall x, f x == 0) -> Qsum (map f l) == 0.
Proof.
  intros Hf. induction l as [| x l IH]; cbn [map].
  - reflexivity.
  - rewrite Qsum_cons, Hf, IH. ring.
Qed.

Lemma Qsum_scale (A : Type) (c : Q) (f : A -> Q) (l : list A) :
  Qsum (map (fun x => c * f x) l) == c * Qsum (map f l).
Proof.
  induction l as [| x l IH]; cbn [map].
  - unfold Qsum. cbn. ring.
  - rewrite !Qsum_cons, IH. ring.
Qed.

Lemma zip_with_as_map (A B C : Type) (f : A -> B -> C) (l : list A) (k : list B) :
  zip_with f l k = map (fun ab => f (fst ab) (snd ab)) (zip l k).
Proof.
  revert k. induction l as [| a l IH]; intros [| b k]; cbn; try reflexivity.
  f_equal. apply IH.
Qed.

Lemma Qsquare_nonneg (x : Q) : 0 <= x * x.
Proof.
  destruct (Qlt_le_dec x 0) as [H | H].
  - assert (Hneg : x * x == (- x) * (- x)) by ring.
    rewrite Hneg. apply Qmult_le_0_compat; Lqa.lra.
  - apply Qmult_le_0_compat; assumption.
Qed.

Lemma Qabs_square (x : Q) : Qabs x * Qabs x == x * x.
Proof.
  rewrite <- Qabs_Qmult. apply Qabs_pos, Qsquare_nonneg.
Qed.

Lemma positive_length (n : nat) : (0 < n)%nat -> 0 < inject_Z (Z.of_nat n).
Proof.
  intros H. change 0 with (inject_Z 0). rewrite <- Zlt_Qlt. lia.
Qed.

Lemma weighted_mse_mean_same_shape (input target : tensor) :
  shape input = shape target ->
  WeightedMse.forward "mean" input target
    = Ok (tensor_mean (WeightedMse.squared_error input target)).
Proof.
  intros Heq. unfold WeightedMse.forward. rewrite decide_True by assumption. reflexivity.
Qed.

Lemma weighted_mse_sum_same_shape (input target : tensor) :
  shape input = shape target ->
  WeightedMse.forward "sum" input target
    = Ok (tensor_sum (WeightedMse.squared_error input target)).
Proof.
  intros Heq. unfold WeightedMse.forward. rewrite decide_True by assumption. reflexivity.
Qed.

(** X13. The squared-error loss of a tensor against itself is zero, for
    the mean (of a tensor with an element) and for the sum. *)
Theorem weighted_mse_of_equal_tensors_is_zero (t : tensor) :
  data t <> [] ->
  exists m s,
    WeightedMse.forward "mean" t t = Ok (Scalar m) /\ m == 0 /\
    WeightedMse.forward "sum" t t = Ok (Scalar s) /\ s == 0.
Proof.
  intros Hne.
  rewrite weighted_mse_mean_same_shape, weighted_mse_sum_same_shape by reflexivity.
  unfold tensor_mean, tensor_sum, WeightedMse.squared_error. cbn [data].
  assert (Hzero : Qsum (zip_with (fun a b => (a - b) ^ 2) (data t) (data t)) == 0).
  { rewrite zip_with_as_map.
    assert (Hdiag : forall l : list Q,
               Qsum (map (fun ab : Q * Q => (fst ab - snd ab) ^ 2) (zip l l)) == 0).
    { induction l as [| x l IH]; cbn [zip zip_with map fst snd].
      - reflexivity.
      - rewrite Qsum_cons, IH. change ((x - x) ^ 2) with ((x - x) * (x - x)). ring. }
    apply Hdiag. }
  destruct (zip_with (fun a b => (a - b) ^ 2) (data t) (data t)) as [| y l] eqn:Hz.
  { destruct (data t); [congruence | discriminate]. }
  cbn [mean_opt].
  eexists. eexists. split; [reflexivity |]. split; [| split; [reflexivity | exact Hzero]].
  unfold Qdiv. rewrite Hzero. ring.
Qed.

Lemma huber_elem_below_half_square (delta x : Q) :
  Huber.huber_elem delta (Qabs x) <= (1 # 2) * (x * x).
Proof.
  unfold Huber.huber_elem, Huber.squared_branch, Huber.linear_branch.
  change (Qabs x ^ 2) with (Qabs x * Qabs x).
  pose proof (Qabs_square x) as Hsq.
  destruct (Qle_bool (Qabs x) delta).
  - rewrite Hsq. apply Qle_refl.
  - pose proof (Qsquare_nonneg (Qabs x - delta)). Lqa.lra.
Qed.

Lemma huber_elem_nonneg (delta x : Q) :
  0 <= delta -> 0 <= Huber.huber_elem delta (Qabs x).
Proof.
  intros Hd. unfold Huber.huber_elem, Huber.squared_branch, Huber.linear_branch.
  change (Qabs x ^ 2) with (Qabs x * Qabs x).
  destruct (Qle_bool (Qabs x) delta) eqn:Hle.
  - pose proof (Qsquare_nonneg (Qabs x)). Lqa.lra.
  - assert (Hgt : delta < Qabs x).
    { apply Qnot_le_lt. intros Hc. apply Qle_bool_iff in Hc. congruence. }
    apply Qmult_le_0_compat; Lqa.lra.
Qed.

(** X15. With a threshold that is not negative the Huber loss is never
    negative, whatever the shapes that were broadcast. *)
Theorem huber_loss_is_nonnegative (delta : Q) (y_pred y_true : tensor) (loss : Q) :
  0 <= delta ->
  Huber.forward delta y_pred y_true = Ok (Scalar loss) ->
  0 <= loss.
Proof.
  intros Hd H. unfold Huber.forward in H. bind_inv H.
  unfold tensor_mean in H. cbn [data] in H.
  rewrite map_map in H.
  destruct (map (fun x => Huber.huber_elem delta (Qabs x)) (data a)) as [| y l] eqn:Hl;
    [discriminate |].
  cbn [mean_opt] in H. injection H as <-. rewrite <- Hl.
  apply Qle_shift_div_l.
  - apply positive_length. cbn. lia.
  - rewrite Qmult_0_l.
    assert (Hzero : Qsum (map (fun _ : Q => 0) (data a)) == 0)
      by (apply Qsum_zero; reflexivity).
    rewrite <- Hzero.
    apply Qsum_bound. intros x. apply huber_elem_nonneg, Hd.
Qed.

Lemma chunks_concat (k n : nat) :
  forall d : list Q, length d = (n * k)%nat -> concat (chunks k n d) = d.
Proof.
  induction n as [| n IH]; intros d Hlen; cbn.
  - destruct d; [reflexivity | discriminate].
  - rewrite IH by (rewrite length_drop; lia). apply take_drop.
Qed.

Lemma chunks_lengths (k n : nat) :
  forall d : list Q, length d = (n * k)%nat ->
    Forall (fun c => length c = k) (chunks k n d).
Proof.
  induction n as [| n IH]; intros d Hlen; cbn; constructor.
  - rewrite length_take. lia.
  - apply IH. rewrite length_drop. lia.
Qed.

Lemma expand_same (s : list nat) :
  forall d : list Q, length d = numel s -> expand s s d = d.
Proof.
  induction s as [| n s IH]; intros d Hlen; [reflexivity |].
  cbn [expand]. rewrite Nat.eqb_refl. cbn [numel fold_right] in Hlen.
  rewrite <- (chunks_concat (numel s) n d Hlen) at 2. f_equal.
  pose proof (chunks_lengths (numel s) n d Hlen) as Hall.
  induction Hall as [| c cs Hc _ IHcs]; cbn; [reflexivity |].
  rewrite IH by exact Hc. f_equal. exact IHcs.
Qed.

Lemma broadcast_rev_same (a : list nat) : broadcast_rev a a = Some a.
Proof.
  induction a as [| x a IH]; cbn; [reflexivity |].
  unfold broadcast_dim. rewrite Nat.eqb_refl, IH. reflexivity.
Qed.

(** On two well-formed tensors of one shape the subtraction is the
    elementwise one. *)
Lemma tensor_sub_same_shape (a b : tensor) :
  shape a = shape b -> tensor_wf a -> tensor_wf b ->
  tensor_sub a b = Ok (mkTensor (shape a) (zip_with Qminus (data a) (data b))).
Proof.
  intros Heq Ha Hb. unfold tensor_sub, broadcast_shapes.
  rewrite <- Heq, broadcast_rev_same, rev_involutive.
  unfold expand_to, pad_shape. rewrite <- Heq, Nat.sub_diag. cbn [repeat app].
  rewrite !expand_same; [reflexivity | |].
  - rewrite Heq. exact Hb.
  - exact Ha.
Qed.

Lemma zip_with_minus_flipped (l k : list Q) :
  zip_with Qminus k l = map (fun ab : Q * Q => snd ab - fst ab) (zip l k).
Proof.
  revert k. induction l as [| a l IH]; intros [| b k]; cbn; try reflexivity.
  f_equal. apply IH.
Qed.


(** ** [unscale] without metadata *)

Lemma scaling_lookup_raises (scaling_info : gmap string (gmap string Q))
    (column key : string) (e : exn) :
  scaling_lookup scaling_info column key = Raise e -> e = KeyError.
Proof.
  unfold scaling_lookup.
  destruct (scaling_info !! column) as [entry |]; [| congruence].
  destruct (entry !! key); congruence.
Qed.

Lemma unscale_loop_missing
    (scaling_info : gmap string (gmap string Q)) (num_columns : nat)
    (data unscaled_data : loc) (d : ndarray) (column_names : list string) :
  data <> unscaled_data ->
  forall (i : nat) (w : world) (u : ndarray),
    heap w !! data = Some d ->
    heap w !! unscaled_data = Some u ->
    (exists k column,
        (i + k < num_columns)%nat /\ column_names !! k = Some column /\
        lacks_metadata scaling_info column) ->
    exists w',
      unscale_loop scaling_info num_columns data unscaled_data i column_names w
        = (Raise KeyError, w') /\
      stdout w' = stdout w.
Proof.
  intros Hne. induction column_names as [| column rest IH];
    intros i w u Hd Hu (k & c & Hk & Hc & Hlack).
  - discriminate.
  - cbn [unscale_loop].
    replace (num_columns <=? i)%nat with false by (symmetry; apply Nat.leb_gt; lia).
    destruct (scaling_lookup scaling_info column "mean") as [mean | e] eqn:Hmean.
    2:{ apply scaling_lookup_raises in Hmean as ->. eauto. }
    destruct (scaling_lookup scaling_info column "std") as [std | e] eqn:Hstd.
    2:{ apply scaling_lookup_raises in Hstd as ->. eauto. }
    rewrite Hd, Hu.
    destruct k as [| k].
    { cbn in Hc. injection Hc as <-. destruct Hlack; congruence. }
    set (u1 := set_col i (map (fun x => x * std + mean) (get_col i d)) u).
    set (w1 := mkWorld (<[unscaled_data := u1]> (heap w)) (stdout w)).
    destruct (IH (S i) w1 u1) as (w' & Hrun & Hout).
    + cbn. rewrite lookup_insert_ne by congruence. exact Hd.
    + cbn. apply lookup_insert_eq.
    + exists k, c. split; [lia | split; assumption].
    + exists w'. split; [exact Hrun | exact Hout].
Qed.

(** X16. When a requested column below the number of columns of the data
    has no 'mean' or no 'std' in [scaling_info], [unscale] raises KeyError
    and prints nothing. *)
Theorem unscale_missing_metadata
    (data : loc) (column_names : list string)
    (scaling_info : gmap string (gmap string Q)) (w : world) (d : ndarray)
    (i : nat) (column : string) :
  heap w !! data = Some d ->
  (i < ncols d)%nat ->
  column_names !! i = Some column ->
  lacks_metadata scaling_info column ->
  fst (unscale data column_names scaling_info w) = Raise KeyError /\
  stdout (snd (unscale data column_names scaling_info w)) = stdout w.
Proof.
  intros Hd Hi Hc Hlack. unfold unscale. rewrite Hd.
  set (new := fresh (dom (heap w))).
  pose proof (fresh_loc_distinct w data d Hd) as Hne. fold new in Hne.
  set (w1 := mkWorld (<[new := d]> (heap w)) (stdout w)).
  destruct (unscale_loop_missing scaling_info (ncols d) data new d column_names Hne
              0%nat w1 d) as (w' & Hrun & Hout).
  - cbn. rewrite lookup_insert_ne by congruence. exact Hd.
  - cbn. apply lookup_insert_eq.
  - exists i, column. auto.
  - rewrite Hrun. cbn. split; [reflexivity | exact Hout].
Qed.

(** ** The models *)

Lemma chunks_length (k n : nat) (d : list Q) : length (chunks k n d) = n.
Proof. revert d. induction n as [| n IH]; intros d; cbn; [| rewrite IH]; reflexivity. Qed.

Lemma concat_rows_length (l : linear) (rows : list (list Q)) :
  length (concat (map (linear_row l) rows)) = (length rows * out_features l)%nat.
Proof.
  induction rows as [| r rows IH]; cbn; [reflexivity |].
  rewrite length_app, IH. unfold linear_row. rewrite length_map, length_seq. reflexivity.
Qed.

(** A layer maps a batch of [n] rows of [in_features] entries to a batch
    of [n] rows of [out_features] entries. *)
Lemma linear_forward_batch (l : linear) (x : tensor) (n : nat) :
  shape x = [n; in_features l] ->
  exists y,
    linear_forward l x = Ok y /\
    shape y = [n; out_features l] /\
    tensor_wf y.
Proof.
  intros Hx. unfold linear_forward. rewrite Hx. cbn [last removelast].
  rewrite Nat.eqb_refl. eexists. split; [reflexivity |]. split; [reflexivity |].
  unfold tensor_wf. cbn [data shape].
  rewrite concat_rows_length, chunks_length. cbn. lia.
Qed.

Lemma activate_batch (f : Q -> Q) (x : tensor) (sh : list nat) :
  shape x = sh -> shape (activate f x) = sh.
Proof. intros H. exact H. Qed.

Lemma hidden_batch (act : Q -> Q) (layers : list linear) (width : nat)
    (idxs : list nat) :
  Forall (fun i => exists l, layers !! i = Some l /\
                              in_features l = width /\ out_features l = width) idxs ->
  forall (x : tensor) (n : nat),
    shape x = [n; width] ->
    exists y, ModelDynamic.hidden act layers idxs x = Ok y /\ shape y = [n; width].
Proof.
  induction 1 as [| i idxs (l & Hl & Hin & Hout) _ IH]; intros x n Hx; cbn.
  - eauto.
  - rewrite Hl.
    destruct (linear_forward_batch l x n) as (y & Hy & Hsh & _); [congruence |].
    rewrite Hy. cbn. apply IH. cbn. congruence.
Qed.

(** X17. A [Model_dynamic] built with at least one layer maps every batch
    of shape (n, 2) to a batch of shape (n, 10), whatever the width, the
    depth, the weights and the activation. *)
Theorem model_dynamic_forward_shape
    (w : initializer) (act : Q -> Q) (h1 : nat) (num_layers : Z)
    (x : tensor) (n : nat) :
  (1 <= num_layers)%Z ->
  shape x = [n; 2%nat] ->
  exists y,
    ModelDynamic.forward act (ModelDynamic.init w h1 num_layers) x = Ok y /\
    shape y = [n; 10%nat] /\
    tensor_wf y.
Proof.
  intros Hnl Hx. unfold ModelDynamic.forward, ModelDynamic.init.
  cbn [ModelDynamic.num_layers ModelDynamic.layers ModelDynamic.out].
  set (more := Z.to_nat (num_layers - 1)).
  replace (Z.to_nat num_layers) with (S more) by (subst more; lia).
  change (seq 0 (S more)) with (0%nat :: seq 1 more).
  cbn [ModelDynamic.hidden lookup list_lookup].
  destruct (linear_forward_batch (nn_Linear w 0 2 h1) x n Hx) as (y0 & Hy0 & Hsh0 & _).
  rewrite Hy0. cbn [mbind result_bind rbind].
  edestruct (hidden_batch act
               (nn_Linear w 0 2 h1 :: map (fun k => nn_Linear w (S k) h1 h1) (seq 0 more))
               h1 (seq 1 more)) as (y1 & Hy1 & Hsh1).
  - apply Forall_forall. intros i Hi. apply elem_of_seq in Hi.
    destruct i as [| i]; [lia |].
    exists (nn_Linear w (S i) h1 h1). split; [| split; reflexivity].
    change (map (fun k => nn_Linear w (S k) h1 h1) (seq 0 more) !! i
            = Some (nn_Linear w (S i) h1 h1)).
    rewrite list_lookup_fmap, lookup_seq_lt by lia. reflexivity.
  - exact (activate_batch act y0 _ Hsh0).
  - rewrite Hy1. cbn [mbind result_bind rbind].
    destruct (linear_forward_batch (nn_Linear w (length (nn_Linear w 0 2 h1
                :: map (fun k => nn_Linear w (S k) h1 h1) (seq 0 more))) h1 10) y1 n Hsh1)
      as (y & Hy & Hsh & Hwf).
    exists y. auto.
Qed.

(** X18. The constructor of [Model_dynamic] always builds the first
    layer: the list has [num_layers] layers, and one layer when
    [num_layers] is zero or negative.  In that case the forward pass
    skips the hidden layers and hands the input to the output layer,
    which refuses a batch of shape (n, 2) unless the width is 2. *)
Theorem model_dynamic_without_layers
    (w : initializer) (act : Q -> Q) (h1 : nat) (num_layers : Z)
    (x : tensor) (n : nat) :
  length (ModelDynamic.layers (ModelDynamic.init w h1 num_layers))
    = Z.to_nat (Z.max 1 num_layers) /\
  ((num_layers <= 0)%Z -> h1 <> 2%nat -> shape x = [n; 2%nat] ->
   ModelDynamic.forward act (ModelDynamic.init w h1 num_layers) x = Raise RuntimeError).
Proof.
  split.
  - cbn. rewrite length_map, length_seq. lia.
  - intros Hnl Hh1 Hx. unfold ModelDynamic.forward, ModelDynamic.init.
    cbn [ModelDynamic.num_layers ModelDynamic.layers ModelDynamic.out].
    replace (Z.to_nat num_layers) with 0%nat by lia.
    cbn [seq ModelDynamic.hidden mbind result_bind rbind].
    unfold linear_forward. rewrite Hx. cbn [last nn_Linear in_features].
    replace (2 =? h1)%nat with false; [reflexivity |].
    symmetry. apply Nat.eqb_neq. congruence.
Qed.

(** X19. A [Model] built for [in_features] inputs and [out_features]
    outputs maps a batch of shape (n, in_features) to a batch of shape
    (n, out_features): (n, 2) to (n, 10) with the defaults of
    [utilities.py] and (n, 2) to (n, 25) with those of
    [BASIC_NEURAL_NETWORK_V1.py]. *)
Theorem model_forward_shape
    (w : initializer) (act : Q -> Q) (in_features h1 h2 out_features : nat)
    (x : tensor) (n : nat) :
  shape x = [n; in_features] ->
  exists y,
    Model.forward act (Model.init w in_features h1 h2 out_features) x = Ok y /\
    shape y = [n; out_features] /\
    tensor_wf y.
Proof.
  intros Hx. unfold Model.forward, Model.init.
  cbn [Model.fc1 Model.fc2 Model.out].
  destruct (linear_forward_batch (nn_Linear w 0 in_features h1) x n Hx)
    as (y1 & Hy1 & Hsh1 & _).
  rewrite Hy1. cbn [mbind result_bind rbind].
  destruct (linear_forward_batch (nn_Linear w 1 h1 h2) (activate act y1) n Hsh1)
    as (y2 & Hy2 & Hsh2 & _).
  rewrite Hy2. cbn [mbind result_bind rbind].
  destruct (linear_forward_batch (nn_Linear w 2 h2 out_features) (activate act y2) n Hsh2)
    as (y & Hy & Hsh & Hwf).
  exists y. auto.
Qed.

(** ** The two training loops *)

Section BasicFacts.

Context {P O : Type}.
Variable forward : bool -> P -> tensor -> result tensor.
Variable criterion : tensor -> tensor -> result Q.
Variable optimizer_step : O -> P -> tensor -> tensor -> O * P.
Variable lr_of : O -> Q.
Variable r2_score mean_squared_error : list Q -> list Q -> result Q.
Variable model : loc.
Variables train_loader val_loader : loader.
Variable num_epochs : nat.

(** A batch pass that the loop of [utilities.py] completes is completed
    by the loop of [BASIC_NEURAL_NETWORK_V1.py] with the same result. *)
Lemma basic_train_batches_agree (bs : list (tensor * tensor)) :
  forall h o outputs acc h' o' outputs' train_loss,
    train_batches forward criterion optimizer_step model bs h o outputs acc
      = Ok (h', o', outputs', train_loss) ->
    Basic.train_batches forward criterion optimizer_step model bs h o acc
      = Ok (h', o', train_loss).
Proof.
  induction bs as [| [inputs targets] rest IH];
    intros h o outputs acc h' o' outputs' train_loss Hrun.
  - cbn in *. congruence.
  - cbn [train_batches Basic.train_batches] in *.
    bind_inv Hrun. rewrite Hbind. cbn.
    bind_inv Hrun. rewrite Hbind0. cbn.
    destruct (decide (shape a0 = shape targets)); [| discriminate].
    bind_inv Hrun. rewrite Hbind1. cbn.
    bind_inv Hrun. rewrite Hbind2. cbn.
    destruct (optimizer_step o a inputs targets) as [o1 p1].
    eapply IH, Hrun.
Qed.

Lemma epoch_metrics_without_scheduler (epoch : nat)
    (s s1 : tstate (P := P) (O := O)) (v : Q) :
  epoch_metrics forward criterion optimizer_step None lr_of r2_score
                mean_squared_error model train_loader val_loader num_epochs epoch s
    = Ok (s1, v) ->
  exists outputs acc train_loss,
    train_batches forward criterion optimizer_step model (batches train_loader epoch)
                  (st_heap s) (st_opt s) (st_outputs s) 0
      = Ok (st_heap s1, st_opt s1, outputs, acc) /\
    div_len acc (dataset_len train_loader) = Ok train_loss /\
    train_losses s1 = train_losses s ++ [train_loss].
Proof.
  unfold epoch_metrics. intros H.
  bind_inv H. destruct a as [[[h o] outputs] acc].
  bind_inv H. bind_inv H. bind_inv H. destruct a1 as [[vl r2s] mses].
  bind_inv H. bind_inv H. injection H as <- <-. cbn.
  exists outputs, acc, a. auto.
Qed.

Lemma plain_epochs_as_basic (epochs : list nat) :
  forall (s t : tstate (P := P) (O := O)) (out : list Basic.line),
    plain_epochs forward criterion optimizer_step None lr_of r2_score
                 mean_squared_error model train_loader val_loader num_epochs epochs s
      = Ok t ->
    exists out',
      Basic.run_epochs forward criterion optimizer_step model train_loader num_epochs
                       epochs (st_heap s) (st_opt s) (train_losses s) out
        = Ok (st_heap t, st_opt t, train_losses t, out').
Proof.
  induction epochs as [| epoch rest IH]; intros s t out Hrun.
  - cbn in *. injection Hrun as <-. eauto.
  - cbn [plain_epochs Basic.run_epochs] in *.
    bind_inv Hrun. destruct a as [s1 v].
    destruct (epoch_metrics_without_scheduler _ _ _ _ Hbind)
      as (outputs & acc & tl & Htrain & Hdiv & Htl).
    rewrite (basic_train_batches_agree _ _ _ _ _ _ _ _ _ Htrain). cbn.
    rewrite Hdiv. cbn. rewrite <- Htl. apply IH, Hrun.
Qed.


Lemma basic_run_epochs_outputs (epochs : list nat) :
  forall h o losses out h' o' losses' out',
    Basic.run_epochs forward criterion optimizer_step model train_loader num_epochs
                     epochs h o losses out = Ok (h', o', losses', out') ->
    exists new lines,
      losses' = losses ++ new /\ length new = length epochs /\
      out' = out ++ lines /\
      map (fun l => match l with Basic.Progress e _ _ => e end) lines
        = map S (List.filter (report_due num_epochs) epochs).
Proof.
  induction epochs as [| epoch rest IH]; intros h o losses out h' o' losses' out' Hrun.
  - cbn in Hrun. injection Hrun as <- <- <- <-. exists [], [].
    rewrite !app_nil_r. auto.
  - cbn [Basic.run_epochs] in Hrun.
    bind_inv Hrun. destruct a as [[h1 o1] acc]. bind_inv Hrun.
    apply IH in Hrun. destruct Hrun as (new & lines & -> & Hlen & -> & Hlines).
    cbn [List.filter]. unfold report_due at 1.
    destruct ((epoch mod 10 =? 0)%nat || (Z.of_nat epoch =? Z.of_nat num_epochs - 1)%Z)%bool.
    + exists (a :: new), (Basic.Progress (S epoch) num_epochs a :: lines).
      rewrite <- !app_assoc. cbn. rewrite Hlen, Hlines. repeat split; reflexivity.
    + exists (a :: new), lines.
      rewrite <- !app_assoc. cbn. rewrite Hlen. repeat split; try reflexivity.
      exact Hlines.
Qed.

(** X21. The loop of [BASIC_NEURAL_NETWORK_V1.py] has no early exit:
    when it returns it has recorded one training loss per epoch, and it
    has printed a progress line for the epochs 1, 11, 21, ... and the
    last one, in this order and for no other. *)
Theorem basic_loop_runs_every_epoch
    (h : gmap loc P) (o : O) (h' : gmap loc P) (o' : O)
    (losses : list Q) (out : list Basic.line) :
  Basic.train_regression_model forward criterion optimizer_step
                               model train_loader num_epochs h o
    = Ok (h', o', losses, out) ->
  length losses = num_epochs /\
  map (fun l => match l with Basic.Progress e _ _ => e end) out
    = map S (List.filter (report_due num_epochs) (seq 0 num_epochs)).
Proof.
  unfold Basic.train_regression_model. intros Hrun.
  destruct (basic_run_epochs_outputs _ _ _ _ _ _ _ _ _ Hrun)
    as (new & lines & -> & Hlen & -> & Hlines).
  cbn. rewrite Hlen, length_seq. auto.
Qed.

End BasicFacts.

(** ** The properties at concrete inputs *)

Lemma early_stop_at_best_plus_patience_witness :
  exists s, Toy.diverging_run = Ok (s, Break) /\ best_then_worse 2 s.
Proof.
  assert (H : exists s, Toy.diverging_run = Ok (s, Break))
    by (vm_compute; eexists; reflexivity).
  destruct H as [s H]. exists s. split; [exact H |].
  unfold Toy.diverging_run in H.
  eapply early_stop_at_best_plus_patience; [| exact H]. lia.
Defined.

Lemma early_stop_keeps_last_epoch_params_witness :
  exists s, Toy.diverging_run = Ok (s, Break) /\
  exists k t,
    (k < 10)%nat /\
    plain_epochs Toy.forward Toy.mse_criterion Toy.sgd_mse_step None Toy.lr_of
                 sk_r2_score sk_mean_squared_error Toy.model
                 Toy.identity_loader Toy.identity_loader 10 (seq 0 (S k))
                 (initial_state Toy.heap0 (1 # 2)) = Ok t /\
    st_heap s = st_heap t /\
    train_losses s = train_losses t /\
    val_losses s = val_losses t.
Proof.
  assert (H : exists s, Toy.diverging_run = Ok (s, Break))
    by (vm_compute; eexists; reflexivity).
  destruct H as [s H]. exists s. split; [exact H |].
  unfold Toy.diverging_run in H.
  exact (early_stop_keeps_last_epoch_params _ _ _ _ _ _ _ _ _ _ _ _ _ _ _ H).
Defined.

Lemma grid_search_saves_last_trained_witness :
  exists g m,
    grid_search Toy2.small_run
                ([mkCombo 5 1 0 32 0; mkCombo 10 1 0 32 0] ++ [mkCombo 15 1 0 32 0]) tt
      = Ok (g, m) /\
    exists rng1 val_losses rng2,
      Toy2.small_run (mkCombo 15 1 0 32 0) rng1 = Ok (m, val_losses, rng2).
Proof.
  assert (H : exists gm,
             grid_search Toy2.small_run
               ([mkCombo 5 1 0 32 0; mkCombo 10 1 0 32 0] ++ [mkCombo 15 1 0 32 0]) tt
             = Ok gm) by (vm_compute; eexists; reflexivity).
  destruct H as [[g m] H]. exists g, m. split; [exact H |].
  exact (grid_search_saves_last_trained _ _ _ _ _ _ H).
Defined.

Lemma best_val_loss_is_min_witness :
  exists s, Toy.converging_run = Ok (s, Continue) /\ tracks_minimum s.
Proof.
  assert (H : exists s, Toy.converging_run = Ok (s, Continue))
    by (vm_compute; eexists; reflexivity).
  destruct H as [s H]. exists s. split; [exact H |].
  unfold Toy.converging_run in H.
  exact (best_val_loss_is_min _ _ _ _ _ _ _ _ _ _ _ _ _ _ _ _ H).
Defined.

Lemma loss_lists_have_one_entry_per_epoch_witness :
  exists s, Toy.diverging_run = Ok (s, Break) /\
    length (train_losses s) = length (val_losses s) /\
    (length (train_losses s) <= 10)%nat /\
    (Break = Continue -> length (train_losses s) = 10%nat) /\
    (Break = Break -> (1 <= length (train_losses s))%nat).
Proof.
  assert (H : exists s, Toy.diverging_run = Ok (s, Break))
    by (vm_compute; eexists; reflexivity).
  destruct H as [s H]. exists s. split; [exact H |].
  unfold Toy.diverging_run in H.
  exact (loss_lists_have_one_entry_per_epoch _ _ _ _ _ _ _ _ _ _ _ _ _ _ _ _ H).
Defined.

Lemma patience_below_one_is_one_witness :
  train_regression_model Toy.forward Toy.mse_criterion Toy.sgd_mse_step None Toy.lr_of
      sk_r2_score sk_mean_squared_error Toy.model
      Toy.identity_loader Toy.identity_loader 10 (-3) Toy.heap0 (1 # 2)
  = train_regression_model Toy.forward Toy.mse_criterion Toy.sgd_mse_step None Toy.lr_of
      sk_r2_score sk_mean_squared_error Toy.model
      Toy.identity_loader Toy.identity_loader 10 1 Toy.heap0 (1 # 2).
Proof.
  apply patience_below_one_is_one. lia.
Defined.

Lemma training_calls_criterion_on_equal_shapes_witness :
  train_batches Toy.forward Toy.mse_criterion Toy.sgd_mse_step Toy.model
                (batches Toy.wide_loader 0) Toy.heap0 (1 # 10) None 0
  = train_batches Toy.forward Toy2.lenient_criterion Toy.sgd_mse_step Toy.model
                  (batches Toy.wide_loader 0) Toy.heap0 (1 # 10) None 0.
Proof.
  apply training_calls_criterion_on_equal_shapes.
  intros outputs targets Heq. unfold Toy2.lenient_criterion.
  rewrite decide_True by exact Heq. reflexivity.
Defined.

Lemma objective_returns_best_val_loss_witness :
  exists m, Toy2.objective_run = Ok m /\
  exists s c,
    train_loop Toy.forward Toy.mse_criterion Toy.sgd_mse_step (Some Toy2.plateau_step)
               Toy.lr_of sk_r2_score sk_mean_squared_error Toy.model
               Toy.identity_loader Toy.identity_loader 3 10 Toy.heap0 (1 # 10)
      = Ok (s, c) /\
    best_val_loss s = Fin m /\
    In m (val_losses s) /\
    Forall (fun v => m <= v) (val_losses s).
Proof.
  assert (H : exists m, Toy2.objective_run = Ok m) by (vm_compute; eexists; reflexivity).
  destruct H as [m H]. exists m. split; [exact H |].
  unfold Toy2.objective_run in H.
  exact (proj2 (objective_returns_best_val_loss _ _ _ _ _ _ _ _ _ _ _ _) 3%nat m H).
Defined.

Lemma grid_search_tracks_best_run_witness :
  exists g saved,
    grid_search Toy2.small_run Toy2.small_grid tt = Ok (g, saved) /\
    exists rs c m v,
      sweep_results Toy2.small_run Toy2.small_grid tt = Ok rs /\
      In (c, m, v) rs /\
      g_best_params g = Some c /\
      g_best_model g = Some m /\
      g_best_val_loss g = Fin v /\
      Forall (fun r : combo * combo * Q => v <= snd r) rs.
Proof.
  assert (H : exists gm, grid_search Toy2.small_run Toy2.small_grid tt = Ok gm)
    by (vm_compute; eexists; reflexivity).
  destruct H as [[g saved] H]. exists g, saved. split; [exact H |].
  exact (grid_search_tracks_best_run _ _ _ _ _ H).
Defined.

Lemma test_model_without_batches_witness :
  test_model Toy.forward Toy.mse_criterion (3 # 4) Toy2.silent_loader 0 = Raise ValueError.
Proof.
  apply test_model_without_batches. reflexivity.
Defined.

Lemma test_model_keeps_batch_order_witness :
  exists test_loss all_predictions all_targets,
    test_model Toy.forward Toy.mse_criterion (3 # 4) Toy2.test_loader 0
      = Ok (test_loss, all_predictions, all_targets) /\
    exists outs,
      batch_outputs Toy.forward (3 # 4) (batches Toy2.test_loader 0) = Ok outs /\
      length outs = length (batches Toy2.test_loader 0) /\
      data all_predictions = concat (map data outs) /\
      data all_targets = concat (map (fun b => data (snd b)) (batches Toy2.test_loader 0)).
Proof.
  assert (H : exists r,
             test_model Toy.forward Toy.mse_criterion (3 # 4) Toy2.test_loader 0 = Ok r)
    by (vm_compute; eexists; reflexivity).
  destruct H as [[[test_loss all_predictions] all_targets] H].
  exists test_loss, all_predictions, all_targets. split; [exact H |].
  exact (test_model_keeps_batch_order _ _ _ _ _ _ _ _ H).
Defined.

Lemma weighted_mse_of_equal_tensors_is_zero_witness :
  exists m s,
    WeightedMse.forward "mean" Toy.xs Toy.xs = Ok (Scalar m) /\ m == 0 /\
    WeightedMse.forward "sum" Toy.xs Toy.xs = Ok (Scalar s) /\ s == 0.
Proof.
  apply weighted_mse_of_equal_tensors_is_zero. discriminate.
Defined.


Lemma huber_loss_is_nonnegative_witness :
  exists loss, Huber.forward 1 Toy.xs Toy.wide_targets = Ok (Scalar loss) /\ 0 <= loss.
Proof.
  assert (H : exists loss, Huber.forward 1 Toy.xs Toy.wide_targets = Ok (Scalar loss))
    by (vm_compute; eexists; reflexivity).
  destruct H as [loss H]. exists loss. split; [exact H |].
  apply (huber_loss_is_nonnegative 1 Toy.xs Toy.wide_targets loss); [discriminate | exact H].
Defined.

Lemma unscale_missing_metadata_witness :
  fst (unscale 5%nat Toy2.names_missing sample_info sample_world) = Raise KeyError /\
  stdout (snd (unscale 5%nat Toy2.names_missing sample_info sample_world))
    = stdout sample_world.
Proof.
  apply (unscale_missing_metadata 5%nat Toy2.names_missing sample_info sample_world
                                  sample_array 1%nat "flow"%string).
  - reflexivity.
  - cbn. lia.
  - reflexivity.
  - left. reflexivity.
Defined.

Lemma model_dynamic_forward_shape_witness :
  exists y,
    ModelDynamic.forward relu (ModelDynamic.init Toy2.halves 3 2) Toy2.inputs2 = Ok y /\
    shape y = [2%nat; 10%nat] /\
    tensor_wf y.
Proof.
  apply model_dynamic_forward_shape; [lia | reflexivity].
Defined.

Lemma model_dynamic_without_layers_witness :
  length (ModelDynamic.layers (ModelDynamic.init Toy2.halves 3 0)) = Z.to_nat (Z.max 1 0) /\
  ModelDynamic.forward relu (ModelDynamic.init Toy2.halves 3 0) Toy2.inputs2
    = Raise RuntimeError.
Proof.
  destruct (model_dynamic_without_layers Toy2.halves relu 3 0 Toy2.inputs2 2) as [Hlen Hraise].
  split; [exact Hlen |].
  apply Hraise; [lia | discriminate | reflexivity].
Defined.

Lemma model_forward_shape_witness :
  exists y,
    Model.forward relu (Model.basic_default Toy2.halves) Toy2.inputs2 = Ok y /\
    shape y = [2%nat; 25%nat] /\
    tensor_wf y.
Proof.
  apply (model_forward_shape Toy2.halves relu 2 10 10 25 Toy2.inputs2 2). reflexivity.
Defined.


Lemma basic_loop_runs_every_epoch_witness :
  exists h' o' losses out,
    Toy2.basic_run = Ok (h', o', losses, out) /\
    length losses = 2%nat /\
    map (fun l => match l with Basic.Progress e _ _ => e end) out
      = map S (List.filter (report_due 2) (seq 0 2)).
Proof.
  assert (H : exists r, Toy2.basic_run = Ok r) by (vm_compute; eexists; reflexivity).
  destruct H as [[[[h' o'] losses] out] H]. exists h', o', losses, out.
  split; [exact H |].
  unfold Toy2.basic_run in H.
  exact (basic_loop_runs_every_epoch _ _ _ _ _ _ _ _ _ _ _ _ H).
Defined.
